(** * Activation keys and the session registry of express-traducteur

    A shallow embedding of [src/utils/hmac.ts] (createActivationKey,
    verifyActivationKey and their helpers) and of
    [src/services/activationService.ts] (ActivationService), together with
    the platform functions they call: UTF-8 transcoding and base64 as Node's
    [Buffer] performs them, HMAC-SHA256 as [crypto.createHmac] does, and
    the [Date] constructor, which is a parameter.

    A JavaScript string is the list of its UTF-16 code units, a [Buffer] the
    list of its bytes; both are lists of [Z].  The calls to [console.log]
    write to the log and have no part in any result; they are left out. *)

From Stdlib Require Import ZArith Lia List Bool Ascii String.
From stdpp Require Import base option list gmap.
Import ListNotations.

Local Open Scope Z_scope.

(** ** JavaScript strings *)

Module JS.

Abbreviation jsstring := (list Z).

Definition charCode (a : ascii) : Z := Z.of_N (N_of_ascii a).

(** The code units of an ASCII literal. *)
Fixpoint lit (s : string) : list Z :=
  match s with
  | EmptyString => []
  | String a r => charCode a :: lit r
  end.

Definition PIPE : Z := 124.   (* '|' *)
Definition DOT : Z := 46.     (* '.' *)
Definition EQUALS : Z := 61.  (* '=' *)
Definition PLUS : Z := 43.    (* '+' *)
Definition SLASH : Z := 47.   (* '/' *)
Definition MINUS : Z := 45.   (* '-' *)
Definition UNDERSCORE : Z := 95. (* '_' *)

(** [s.split(sep)] for a one-character separator: the pieces between
    the occurrences of [sep]; never the empty array. *)
Fixpoint split (sep : Z) (s : list Z) : list (list Z) :=
  match s with
  | [] => [[]]
  | c :: t =>
      if c =? sep then [] :: split sep t
      else match split sep t with
           | h :: r => (c :: h) :: r
           | [] => [[c]]
           end
  end.

(** [s.replace(/a/g, b)] for single characters [a] and [b]. *)
Definition replaceAll (a b : Z) (s : list Z) : list Z :=
  List.map (fun c => if c =? a then b else c) s.

(** [s.replace(/a/g, '')]. *)
Definition removeAll (a : Z) (s : list Z) : list Z :=
  List.filter (fun c => negb (c =? a)) s.

(** [c.repeat(n)]. *)
Definition repeat (c : Z) (n : Z) : list Z := List.repeat c (Z.to_nat n).

Definition length (s : list Z) : Z := Z.of_nat (List.length s).

(** A string is well formed when every code unit is a 16-bit value and
    every surrogate is half of a high-low pair. *)
Definition is_high (c : Z) : bool := (0xD800 <=? c) && (c <=? 0xDBFF).
Definition is_low (c : Z) : bool := (0xDC00 <=? c) && (c <=? 0xDFFF).

Fixpoint well_formed (s : list Z) : bool :=
  match s with
  | [] => true
  | c :: t =>
      if is_high c then
        match t with
        | d :: t' => is_low d && well_formed t'
        | [] => false
        end
      else (0 <=? c) && (c <? 0x10000) && negb (is_low c) && well_formed t
  end.

(** Every element is a 16-bit code unit. *)
Definition code_units (s : list Z) : bool :=
  List.forallb (fun c => (0 <=? c) && (c <? 0x10000)) s.

(** [s.toWellFormed()]: every unpaired surrogate replaced by U+FFFD. *)
Fixpoint toWellFormed (s : list Z) : list Z :=
  match s with
  | [] => []
  | c :: t =>
      if is_high c then
        match t with
        | d :: t' =>
            if is_low d then c :: d :: toWellFormed t'
            else 0xFFFD :: toWellFormed t
        | [] => [0xFFFD]
        end
      else if is_low c then 0xFFFD :: toWellFormed t
      else c :: toWellFormed t
  end.

End JS.

(** ** Node's Buffer: UTF-8 and base64 *)

Module Buffer.

Import JS.

(** *** [Buffer.from(str)]: UTF-8 encoding, an unpaired surrogate becomes
    U+FFFD (EF BF BD). *)

Definition utf8_1 (c : Z) : list Z := [c].
Definition utf8_2 (c : Z) : list Z := [0xC0 + c / 64; 0x80 + c mod 64].
Definition utf8_3 (c : Z) : list Z :=
  [0xE0 + c / 4096; 0x80 + (c / 64) mod 64; 0x80 + c mod 64].
Definition utf8_4 (c : Z) : list Z :=
  [0xF0 + c / 262144; 0x80 + (c / 4096) mod 64;
   0x80 + (c / 64) mod 64; 0x80 + c mod 64].
Definition REPLACEMENT : Z := 0xFFFD.

Definition pair_code_point (hi lo : Z) : Z :=
  0x10000 + (hi - 0xD800) * 1024 + (lo - 0xDC00).

Fixpoint from_utf8 (s : list Z) : list Z :=
  match s with
  | [] => []
  | c :: t =>
      if c <? 0x80 then utf8_1 c ++ from_utf8 t
      else if c <? 0x800 then utf8_2 c ++ from_utf8 t
      else if is_high c then
        match t with
        | d :: t' =>
            if is_low d then utf8_4 (pair_code_point c d) ++ from_utf8 t'
            else utf8_3 REPLACEMENT ++ from_utf8 t
        | [] => utf8_3 REPLACEMENT
        end
      else if is_low c then utf8_3 REPLACEMENT ++ from_utf8 t
      else utf8_3 c ++ from_utf8 t
  end.

(** *** [buf.toString('utf-8')]: the UTF-8 decoder; every maximal
    ill-formed subsequence becomes one U+FFFD, nothing is thrown. *)

Inductive utf8_state :=
| Idle
| Pending (cp : Z) (more : nat) (lo hi : Z).

Definition utf16_units (cp : Z) : list Z :=
  if cp <? 0x10000 then [cp]
  else [0xD800 + (cp - 0x10000) / 1024; 0xDC00 + (cp - 0x10000) mod 1024].

Definition utf8_lead (b : Z) : list Z * utf8_state :=
  if b <=? 0x7F then ([b], Idle)
  else if (0xC2 <=? b) && (b <=? 0xDF) then
    ([], Pending (b mod 32) 0 0x80 0xBF)
  else if (0xE0 <=? b) && (b <=? 0xEF) then
    ([], Pending (b mod 16) 1
                 (if b =? 0xE0 then 0xA0 else 0x80)
                 (if b =? 0xED then 0x9F else 0xBF))
  else if (0xF0 <=? b) && (b <=? 0xF4) then
    ([], Pending (b mod 8) 2
                 (if b =? 0xF0 then 0x90 else 0x80)
                 (if b =? 0xF4 then 0x8F else 0xBF))
  else ([REPLACEMENT], Idle).

Fixpoint utf8_run (st : utf8_state) (bs : list Z) : list Z :=
  match bs with
  | [] => match st with Idle => [] | Pending _ _ _ _ => [REPLACEMENT] end
  | b :: t =>
      match st with
      | Idle => fst (utf8_lead b) ++ utf8_run (snd (utf8_lead b)) t
      | Pending cp more lo hi =>
          if (lo <=? b) && (b <=? hi) then
            match more with
            | O => utf16_units (cp * 64 + b mod 64) ++ utf8_run Idle t
            | S m => utf8_run (Pending (cp * 64 + b mod 64) m 0x80 0xBF) t
            end
          else
            REPLACEMENT :: fst (utf8_lead b) ++ utf8_run (snd (utf8_lead b)) t
      end
  end.

Definition toString_utf8 (bs : list Z) : list Z := utf8_run Idle bs.

(** *** [buf.toString('base64')] *)

Definition b64char (v : Z) : Z :=
  if v <? 26 then 65 + v
  else if v <? 52 then 97 + (v - 26)
  else if v <? 62 then 48 + (v - 52)
  else if v =? 62 then PLUS
  else SLASH.

Fixpoint toString_base64 (bs : list Z) : list Z :=
  match bs with
  | [] => []
  | [a] => [b64char (a / 4); b64char (a mod 4 * 16); EQUALS; EQUALS]
  | [a; b] =>
      [b64char (a / 4); b64char (a mod 4 * 16 + b / 16);
       b64char (b mod 16 * 4); EQUALS]
  | a :: b :: c :: t =>
      [b64char (a / 4); b64char (a mod 4 * 16 + b / 16);
       b64char (b mod 16 * 4 + c / 64); b64char (c mod 64)]
        ++ toString_base64 t
  end.

(** *** [Buffer.from(str, 'base64')]: Node's forgiving decoder.  It reads
    the low byte of each code unit, stops at the first '=', skips every
    character outside the two base64 alphabets, and decodes what is left;
    it never throws. *)

Definition unbase64 (c : Z) : option Z :=
  if (65 <=? c) && (c <=? 90) then Some (c - 65)
  else if (97 <=? c) && (c <=? 122) then Some (c - 97 + 26)
  else if (48 <=? c) && (c <=? 57) then Some (c - 48 + 52)
  else if (c =? PLUS) || (c =? MINUS) then Some 62
  else if (c =? SLASH) || (c =? UNDERSCORE) then Some 63
  else None.

Fixpoint base64_sextets (s : list Z) : list Z :=
  match s with
  | [] => []
  | c :: t =>
      if c mod 256 =? EQUALS then []
      else match unbase64 (c mod 256) with
           | Some v => v :: base64_sextets t
           | None => base64_sextets t
           end
  end.

Fixpoint base64_groups (vs : list Z) : list Z :=
  match vs with
  | a :: b :: c :: d :: t =>
      [a * 4 + b / 16; b mod 16 * 16 + c / 4; c mod 4 * 64 + d]
        ++ base64_groups t
  | [a; b; c] => [a * 4 + b / 16; b mod 16 * 16 + c / 4]
  | [a; b] => [a * 4 + b / 16]
  | _ => []
  end.

Definition from_base64 (s : list Z) : list Z :=
  base64_groups (base64_sextets s).

(** *** [buf.toString('hex')] *)

Definition hexdigit (v : Z) : Z := if v <? 10 then 48 + v else 87 + v.

Definition toString_hex (bs : list Z) : list Z :=
  List.flat_map (fun b => [hexdigit (b / 16); hexdigit (b mod 16)]) bs.

End Buffer.

(** ** Node's crypto: HMAC-SHA256 (FIPS 180-4, RFC 2104) *)

Module Crypto.

Definition w32 (x : Z) : Z := x mod 2 ^ 32.
Definition add32 (x y : Z) : Z := w32 (x + y).
Definition rotr (n x : Z) : Z :=
  Z.lor (Z.shiftr x n) (w32 (Z.shiftl x (32 - n))).
Definition not32 (x : Z) : Z := Z.lxor x 0xFFFFFFFF.

Definition Ch (x y z : Z) : Z := Z.lxor (Z.land x y) (Z.land (not32 x) z).
Definition Maj (x y z : Z) : Z :=
  Z.lxor (Z.lxor (Z.land x y) (Z.land x z)) (Z.land y z).
Definition Sigma0 (x : Z) : Z :=
  Z.lxor (Z.lxor (rotr 2 x) (rotr 13 x)) (rotr 22 x).
Definition Sigma1 (x : Z) : Z :=
  Z.lxor (Z.lxor (rotr 6 x) (rotr 11 x)) (rotr 25 x).
Definition sigma0 (x : Z) : Z :=
  Z.lxor (Z.lxor (rotr 7 x) (rotr 18 x)) (Z.shiftr x 3).
Definition sigma1 (x : Z) : Z :=
  Z.lxor (Z.lxor (rotr 17 x) (rotr 19 x)) (Z.shiftr x 10).

(** The round constants are the first 32 bits of the fractional parts of
    the cube roots of the first 64 primes, the initial hash value those of
    the square roots of the first 8 (FIPS 180-4, 4.2.2 and 5.3.3). *)
Definition primes : list Z :=
  [2; 3; 5; 7; 11; 13; 17; 19; 23; 29; 31; 37; 41; 43; 47; 53; 59; 61; 67;
   71; 73; 79; 83; 89; 97; 101; 103; 107; 109; 113; 127; 131; 137; 139; 149;
   151; 157; 163; 167; 173; 179; 181; 191; 193; 197; 199; 211; 223; 227; 229;
   233; 239; 241; 251; 257; 263; 269; 271; 277; 281; 283; 293; 307; 311].

(** The integer cube root, one bit at a time from bit [bits - 1] down. *)
Fixpoint cube_root (bits : nat) (n r : Z) : Z :=
  match bits with
  | O => r
  | S b =>
      let r' := r + 2 ^ Z.of_nat b in
      cube_root b n (if r' * r' * r' <=? n then r' else r)
  end.

Definition K256 : list Z :=
  Eval vm_compute in
    List.map (fun p => w32 (cube_root 36 (p * 2 ^ 96) 0)) primes.

Definition H0 : list Z :=
  Eval vm_compute in
    List.map (fun p => w32 (Z.sqrt (p * 2 ^ 64))) (List.firstn 8 primes).

(** Padding: a 1 bit, zeros up to 56 mod 64 bytes, the bit length on
    eight bytes. *)
Definition be_bytes (n : nat) (x : Z) : list Z :=
  List.map (fun i => (x / 256 ^ Z.of_nat i) mod 256) (List.rev (List.seq 0 n)).

Definition pad (msg : list Z) : list Z :=
  let len := Z.of_nat (List.length msg) in
  msg ++ [0x80] ++ List.repeat 0 (Z.to_nat ((55 - len) mod 64))
      ++ be_bytes 8 (8 * len).

Fixpoint be_words (bs : list Z) : list Z :=
  match bs with
  | a :: b :: c :: d :: t =>
      (((a * 256 + b) * 256 + c) * 256 + d) :: be_words t
  | _ => []
  end.

(** The message schedule, newest word first: [rev_w] holds W(t-1) ... W(0). *)
Definition next_w (rev_w : list Z) : Z :=
  add32 (add32 (sigma1 (List.nth 1 rev_w 0)) (List.nth 6 rev_w 0))
        (add32 (sigma0 (List.nth 14 rev_w 0)) (List.nth 15 rev_w 0)).

Fixpoint extend (n : nat) (rev_w : list Z) : list Z :=
  match n with
  | O => rev_w
  | S n' => extend n' (next_w rev_w :: rev_w)
  end.

Definition schedule (block : list Z) : list Z :=
  List.rev (extend 48 (List.rev block)).

Definition round (st : list Z) (kw : Z * Z) : list Z :=
  match st with
  | [a; b; c; d; e; f; g; h] =>
      let t1 := add32 (add32 (add32 h (Sigma1 e)) (Ch e f g))
                      (add32 (fst kw) (snd kw)) in
      let t2 := add32 (Sigma0 a) (Maj a b c) in
      [add32 t1 t2; a; b; c; add32 d t1; e; f; g]
  | _ => st
  end.

Definition compress (h : list Z) (block : list Z) : list Z :=
  let out := List.fold_left round (List.combine K256 (schedule block)) h in
  List.map (fun p => add32 (fst p) (snd p)) (List.combine h out).

Fixpoint blocks (n : nat) (ws : list Z) (h : list Z) : list Z :=
  match n with
  | O => h
  | S n' => blocks n' (List.skipn 16 ws) (compress h (List.firstn 16 ws))
  end.

Definition sha256 (msg : list Z) : list Z :=
  let ws := be_words (pad msg) in
  List.flat_map (be_bytes 4) (blocks (List.length ws / 16) ws H0).

(** HMAC: a key longer than the 64-byte block is hashed first, a shorter
    one is filled with zero bytes. *)
Definition block_key (key : list Z) : list Z :=
  let k := if (64 <? Z.of_nat (List.length key)) then sha256 key else key in
  k ++ List.repeat 0 (64 - List.length k).

Definition xor_with (c : Z) (bs : list Z) : list Z :=
  List.map (fun b => Z.lxor b c) bs.

Definition hmac_sha256 (key msg : list Z) : list Z :=
  let k := block_key key in
  sha256 (xor_with 0x5c k ++ sha256 (xor_with 0x36 k ++ msg)).

End Crypto.

(** ** Completions: a call either returns or throws *)

Inductive completion (A : Type) : Type :=
| Normal (a : A)
| Throw (error : list Z).
Arguments Normal {A} a.
Arguments Throw {A} error.

#[global] Instance completion_bind : MBind completion :=
  fun A B (k : A -> completion B) (c : completion A) =>
    match c with
    | Normal a => k a
    | Throw e => Throw e
    end.

(** [try { body } catch (error) { handler }] *)
Definition try_catch {A} (body : completion A) (handler : list Z -> completion A)
  : completion A :=
  match body with
  | Normal a => Normal a
  | Throw e => handler e
  end.

Definition threw {A} (c : completion A) : bool :=
  match c with
  | Normal _ => false
  | Throw _ => true
  end.

(** ** src/utils/hmac.ts *)

Module Hmac.

Import JS.

Record ActivationPayload := {
  identifier : jsstring;
  expiry : jsstring;
  plan : jsstring;
  nonce : jsstring
}.

Record VerificationResult := {
  valid : bool;
  payload : option ActivationPayload;
  reason : option jsstring
}.

(** The failure reasons, under the names of the design document, and the
    text the source gives each. *)
Inductive Reason :=
| MalformedEncoding
| MalformedPayload
| MalformedSignatureSection
| SignatureMismatch
| InvalidExpiryFormat
| Expired.

Definition reason_text (r : Reason) : jsstring :=
  match r with
  | MalformedEncoding => lit "Key decoding failed"
  | MalformedPayload => lit "Invalid payload format"
  | MalformedSignatureSection => lit "Invalid nonce/signature format"
  | SignatureMismatch => lit "Invalid signature"
  | InvalidExpiryFormat => lit "Invalid expiry date format"
  | Expired => lit "Key has expired"
  end.

Definition Valid (p : ActivationPayload) : VerificationResult :=
  {| valid := true; payload := Some p; reason := None |}.

Definition Invalid (r : Reason) : VerificationResult :=
  {| valid := false; payload := None; reason := Some (reason_text r) |}.

Definition base64UrlEncode (str : jsstring) : jsstring :=
  removeAll EQUALS
    (replaceAll SLASH UNDERSCORE
       (replaceAll PLUS MINUS
          (Buffer.toString_base64 (Buffer.from_utf8 str)))).

Definition base64UrlDecode (str : jsstring) : jsstring :=
  let padding := JS.repeat EQUALS ((4 - JS.length str mod 4) mod 4) in
  let base64 :=
    replaceAll UNDERSCORE SLASH (replaceAll MINUS PLUS str) ++ padding in
  Buffer.toString_utf8 (Buffer.from_base64 base64).

Definition generateSignature (payload secret : jsstring) : jsstring :=
  Buffer.toString_hex
    (Crypto.hmac_sha256 (Buffer.from_utf8 secret) (Buffer.from_utf8 payload)).

(** The template [`${identifier}|${expiry}|${plan}|${nonce}`]. *)
Definition payloadText (identifier expiry plan nonce : jsstring) : jsstring :=
  identifier ++ [PIPE] ++ expiry ++ [PIPE] ++ plan ++ [PIPE] ++ nonce.

Definition createActivationKey
  (identifier expiry plan nonce secret : jsstring) : completion jsstring :=
  let payload := payloadText identifier expiry plan nonce in
  let signature := generateSignature payload secret in
  let fullKey := payload ++ [DOT] ++ signature in
  Normal (base64UrlEncode fullKey).

Section Verify.

(** [Date_parse s] is the time value of [new Date(s)] in milliseconds,
    [None] when it is NaN; [now] is the time value of [new Date()]. *)
Variable Date_parse : jsstring -> option Z.

(** [parts[i]] after the length of [parts] has been checked. *)
Definition item (i : nat) (parts : list jsstring) : jsstring :=
  List.nth i parts [].

Definition verifyBody (now : Z) (key secret : jsstring)
  : completion VerificationResult :=
  let decoded := base64UrlDecode key in
  let parts := split PIPE decoded in
  if negb (Nat.eqb (List.length parts) 4) then
    Normal (Invalid MalformedPayload)
  else
    let identifier := item 0 parts in
    let expiry := item 1 parts in
    let plan := item 2 parts in
    let nonceAndSig := item 3 parts in
    let lastParts := split DOT nonceAndSig in
    if negb (Nat.eqb (List.length lastParts) 2) then
      Normal (Invalid MalformedSignatureSection)
    else
      let nonce := item 0 lastParts in
      let signature := item 1 lastParts in
      let payload := payloadText identifier expiry plan nonce in
      let expectedSignature := generateSignature payload secret in
      if negb (bool_decide (signature = expectedSignature)) then
        Normal (Invalid SignatureMismatch)
      else
        match Date_parse expiry with
        | None => Normal (Invalid InvalidExpiryFormat)
        | Some expiryDate =>
            if expiryDate <=? now then Normal (Invalid Expired)
            else
              Normal (Valid {| identifier := identifier; expiry := expiry;
                               plan := plan; nonce := nonce |})
        end.

Definition verifyActivationKey (now : Z) (key secret : jsstring)
  : completion VerificationResult :=
  try_catch (verifyBody now key secret)
            (fun _ => Normal (Invalid MalformedEncoding)).

End Verify.

End Hmac.

(** ** src/services/activationService.ts *)

Module ActivationService.

Import JS Hmac.

Record ActivationSession := {
  s_identifier : jsstring;
  s_plan : jsstring;
  s_expiry : jsstring;
  activatedAt : Z
}.

Record t := {
  activeSessions : gmap (list Z) ActivationSession;
  secret : jsstring
}.

Definition new (secret : jsstring) : t :=
  {| activeSessions := ∅; secret := secret |}.

Definition with_sessions (this : t) (m : gmap (list Z) ActivationSession) : t :=
  {| activeSessions := m; secret := secret this |}.

Record ActivationOutcome := {
  ok : bool;
  o_identifier : option jsstring;
  o_plan : option jsstring;
  o_expiry : option jsstring;
  o_reason : option jsstring
}.

Definition Rejected (reason : option jsstring) : ActivationOutcome :=
  {| ok := false; o_identifier := None; o_plan := None; o_expiry := None;
     o_reason := reason |}.

Definition Accepted (identifier plan expiry : jsstring) : ActivationOutcome :=
  {| ok := true; o_identifier := Some identifier; o_plan := Some plan;
     o_expiry := Some expiry; o_reason := None |}.

Section Service.

Variable Date_parse : jsstring -> option Z.

(** [now] is the clock read inside verifyActivationKey, [stamp] the one
    read for [activatedAt]. *)
Definition activate (now stamp : Z) (key : jsstring) (this : t)
  : completion (ActivationOutcome * t) :=
  verification ← verifyActivationKey Date_parse now key (secret this);
  match valid verification, payload verification with
  | true, Some p =>
      let session := {| s_identifier := identifier p; s_plan := plan p;
                        s_expiry := expiry p; activatedAt := stamp |} in
      Normal (Accepted (identifier p) (plan p) (expiry p),
              with_sessions this
                (<[identifier p := session]> (activeSessions this)))
  | _, _ => Normal (Rejected (reason verification), this)
  end.

(** [new Date(session.expiry) <= now]; false when the date is invalid. *)
Definition expired (now : Z) (session : ActivationSession) : bool :=
  match Date_parse (s_expiry session) with
  | Some expiryDate => expiryDate <=? now
  | None => false
  end.

Definition isActive (now : Z) (identifier : jsstring) (this : t) : bool * t :=
  match activeSessions this !! identifier with
  | None => (false, this)
  | Some session =>
      if expired now session then
        (false, with_sessions this (delete identifier (activeSessions this)))
      else (true, this)
  end.

Definition getSession (identifier : jsstring) (this : t)
  : option ActivationSession :=
  activeSessions this !! identifier.

Definition cleanExpiredSessions (now : Z) (this : t) : t :=
  with_sessions this
    (filter (fun entry => expired now (snd entry) = false)
            (activeSessions this)).

(** The calls a client can make, and the registry after a run of them. *)
Inductive call :=
| CallActivate (now stamp : Z) (key : jsstring)
| CallIsActive (now : Z) (identifier : jsstring)
| CallGetSession (identifier : jsstring)
| CallCleanExpiredSessions (now : Z).

Definition after (c : call) (this : t) : t :=
  match c with
  | CallActivate now stamp key =>
      match activate now stamp key this with
      | Normal (_, this') => this'
      | Throw _ => this
      end
  | CallIsActive now identifier => snd (isActive now identifier this)
  | CallGetSession _ => this
  | CallCleanExpiredSessions now => cleanExpiredSessions now this
  end.

Definition run (calls : list call) (this : t) : t :=
  List.fold_left (fun st c => after c st) calls this.

End Service.

End ActivationService.

(** ** Vocabulary of the statements *)

Module Text.

Import JS Buffer.

(** [s.includes(c)] *)
Definition includes (c : Z) (s : list Z) : bool := List.existsb (Z.eqb c) s.

(** Number of occurrences of [c] in [s]. *)
Definition occurrences (c : Z) (s : list Z) : nat :=
  List.length (List.filter (Z.eqb c) s).

(** The text before and after the last occurrence of [c]; when [c] does
    not occur, nothing before and everything after. *)
Fixpoint before_last (c : Z) (s : list Z) : list Z :=
  match s with
  | [] => []
  | x :: t => if includes c t then x :: before_last c t else []
  end.

Fixpoint after_last (c : Z) (s : list Z) : list Z :=
  match s with
  | [] => []
  | x :: t =>
      if includes c t then after_last c t
      else if x =? c then t
      else x :: t
  end.

(** Bytes. *)
Definition is_byte (b : Z) : Prop := 0 <= b < 256.

(** A text in the URL-safe alphabet without padding, of a length that a
    whole number of bytes can have: what base64UrlEncode can produce. *)
Definition url_safe_char (c : Z) : bool :=
  ((65 <=? c) && (c <=? 90)) || ((97 <=? c) && (c <=? 122))
  || ((48 <=? c) && (c <=? 57)) || (c =? 45) || (c =? 95).

Definition validly_encoded (s : list Z) : bool :=
  List.forallb url_safe_char s
  && negb (Z.of_nat (List.length s) mod 4 =? 1).

(** Lowercase hexadecimal digits. *)
Definition is_hex (c : Z) : Prop := 48 <= c <= 57 \/ 97 <= c <= 102.

(** The 6-bit values of base64. *)
Definition is_sextet (v : Z) : Prop := 0 <= v < 64.

(** The 6-bit values of a buffer, and the number of '=' that follow. *)
Fixpoint sextets (bs : list Z) : list Z :=
  match bs with
  | [] => []
  | [a] => [a / 4; a mod 4 * 16]
  | [a; b] => [a / 4; a mod 4 * 16 + b / 16; b mod 16 * 4]
  | a :: b :: c :: t =>
      [a / 4; a mod 4 * 16 + b / 16; b mod 16 * 4 + c / 64; c mod 64]
        ++ sextets t
  end.

Fixpoint padding (bs : list Z) : nat :=
  match bs with
  | [] => 0
  | [_] => 2
  | [_; _] => 1
  | _ :: _ :: _ :: t => padding t
  end.

(** One character of the alphabet. *)
Definition swap (a b c : Z) : Z := if c =? a then b else c.

Definition to_url (c : Z) : Z := swap SLASH UNDERSCORE (swap PLUS MINUS c).
Definition of_url (c : Z) : Z := swap UNDERSCORE SLASH (swap MINUS PLUS c).

(** A code unit that is a code point by itself. *)
Definition is_scalar_unit (c : Z) : Prop :=
  0 <= c < 0x10000 /\ ~ (0xD800 <= c <= 0xDFFF).

(** The encoder, one code point at a time. *)
Definition encode_unit (c : Z) : list Z :=
  if c <? 0x80 then utf8_1 c
  else if c <? 0x800 then utf8_2 c
  else utf8_3 c.

(** [c] is a surrogate that forms no pair with the head of [t]. *)
Definition lone (c : Z) (t : list Z) : Prop :=
  is_low c = true
  \/ (is_high c = true /\ is_low (List.hd 0 t) = false).

End Text.

(** ** The invariant of the registry *)

Module Invariant.

Import ActivationService.

(** Every entry is stored under the identifier it records. *)
Definition key_consistent (this : t) : Prop :=
  forall k s, activeSessions this !! k = Some s -> s_identifier s = k.

End Invariant.

(** ** An instance of the Date constructor

    [iso_parse] reads the ECMAScript date-time string format in its full
    form [YYYY-MM-DDTHH:mm:ss.sssZ], the one [toISOString] writes and
    scripts/generateKey.ts puts into keys.  The theorems below hold for
    every [Date_parse]; this instance serves to evaluate the code on
    concrete keys, and it is silent ([None]) on every other form. *)

Module Engine.

Definition digit (c : Z) : option Z :=
  if (48 <=? c) && (c <=? 57) then Some (c - 48) else None.

Fixpoint number (acc : Z) (s : list Z) : option Z :=
  match s with
  | [] => Some acc
  | c :: t => d ← digit c; number (acc * 10 + d) t
  end.

Definition field (from len : nat) (s : list Z) : option Z :=
  number 0 (List.firstn len (List.skipn from s)).

Definition sep_at (i : nat) (c : Z) (s : list Z) : bool :=
  List.nth i s 0 =? c.

Definition leap (y : Z) : bool :=
  (y mod 4 =? 0) && (negb (y mod 100 =? 0) || (y mod 400 =? 0)).

Definition days_in_month (y m : Z) : Z :=
  if m =? 2 then (if leap y then 29 else 28)
  else if (m =? 4) || (m =? 6) || (m =? 9) || (m =? 11) then 30
  else 31.

(** Days from 1970-01-01 to the civil date y-m-d. *)
Definition days_from_civil (y m d : Z) : Z :=
  let y' := if m <=? 2 then y - 1 else y in
  let era := y' / 400 in
  let yoe := y' - era * 400 in
  let mp := (m + 9) mod 12 in
  let doy := (153 * mp + 2) / 5 + d - 1 in
  let doe := yoe * 365 + yoe / 4 - yoe / 100 + doy in
  era * 146097 + doe - 719468.

Definition iso_parse (s : list Z) : option Z :=
  if negb (Nat.eqb (List.length s) 24) then None
  else if negb (sep_at 4 45 s && sep_at 7 45 s && sep_at 10 84 s
                && sep_at 13 58 s && sep_at 16 58 s && sep_at 19 46 s
                && sep_at 23 90 s) then None
  else
    y ← field 0 4 s; m ← field 5 2 s; d ← field 8 2 s;
    h ← field 11 2 s; mi ← field 14 2 s; sec ← field 17 2 s;
    ms ← field 20 3 s;
    if (1 <=? m) && (m <=? 12) && (1 <=? d) && (d <=? days_in_month y m)
       && (h <=? 23) && (mi <=? 59) && (sec <=? 59)
    then Some ((((days_from_civil y m d * 24 + h) * 60 + mi) * 60 + sec)
                 * 1000 + ms)
    else None.

End Engine.

(** ** The order of checks, in the words of the design document and in
    the words of the source *)

Module Order.

Import JS Text Hmac.

Section Order.

Variable Date_parse : jsstring -> option Z.

Definition check_expiry (now : Z) (p : ActivationPayload)
  : VerificationResult :=
  match Date_parse (expiry p) with
  | None => Invalid InvalidExpiryFormat
  | Some expiryDate =>
      if expiryDate <=? now then Invalid Expired else Valid p
  end.

(** Design document, 4.1: the encoding is reversed; the decoded text is
    cut at its last dot into payload and signature; then the payload is
    cut at the field delimiters into four fields; then signature; then
    expiry. *)
Definition verify_spec_order (now : Z) (key secret : jsstring)
  : VerificationResult :=
  if negb (validly_encoded key) then Invalid MalformedEncoding
  else
  let decoded := base64UrlDecode key in
  if negb (includes DOT decoded) then Invalid MalformedSignatureSection
  else
    let payload := before_last DOT decoded in
    let signature := after_last DOT decoded in
    let fields := split PIPE payload in
    if negb (Nat.eqb (List.length fields) 4) then Invalid MalformedPayload
    else if negb (bool_decide (signature = generateSignature payload secret))
    then Invalid SignatureMismatch
    else check_expiry now
           {| identifier := item 0 fields; expiry := item 1 fields;
              plan := item 2 fields; nonce := item 3 fields |}.

(** The source: the decoded text must hold exactly three field
    delimiters; then its fourth field must hold exactly one dot; then
    the text after that dot is compared with the signature of the text
    before it; then expiry. *)
Definition verify_code_order (now : Z) (key secret : jsstring)
  : VerificationResult :=
  let decoded := base64UrlDecode key in
  if negb (Nat.eqb (occurrences PIPE decoded) 3) then Invalid MalformedPayload
  else
    let fourth := after_last PIPE decoded in
    if negb (Nat.eqb (occurrences DOT fourth) 1)
    then Invalid MalformedSignatureSection
    else
      let payload := before_last DOT decoded in
      let signature := after_last DOT decoded in
      if negb (bool_decide (signature = generateSignature payload secret))
      then Invalid SignatureMismatch
      else
        let fields := split PIPE payload in
        check_expiry now
          {| identifier := item 0 fields; expiry := item 1 fields;
             plan := item 2 fields; nonce := item 3 fields |}.

End Order.

End Order.

(** ** Sample keys *)

Module Sample.

Import JS Hmac.

Definition u1 : jsstring := lit "u1".
Definition basic : jsstring := lit "basic".
Definition n1 : jsstring := lit "n1".
Definition secret_k : jsstring := lit "k".
Definition secret_j : jsstring := lit "j".

(** 2030-01-01T00:00:00.000Z is 1893456000000 ms after the epoch. *)
Definition y2030 : jsstring := lit "2030-01-01T00:00:00.000Z".
Definition y2030_ms : Z := 1893456000000.

(** The key createActivationKey gives for (u1, 2030, basic, n1) under
    the secret "k". *)
Definition key_u1 : jsstring :=
  lit "dTF8MjAzMC0wMS0wMVQwMDowMDowMC4wMDBafGJhc2ljfG4xLjgzMTQyNmZhMzNiODhmMGJmNjRmN2E3YTg0NTRiZjI3YTRkODkyNDFjZjgyNDc5NDY1NDVkMmRmOTlhYWRmNGE".

(** The registry after that key has been activated at time 5. *)
Definition session_u1 : ActivationService.ActivationSession :=
  {| ActivationService.s_identifier := u1;
     ActivationService.s_plan := basic;
     ActivationService.s_expiry := y2030;
     ActivationService.activatedAt := 5 |}.

Definition service_u1 : ActivationService.t :=
  ActivationService.with_sessions (ActivationService.new secret_k)
    (<[u1 := session_u1]> ∅).

End Sample.

(** ** A second invariant of the registry *)

Module Readable.

Import JS ActivationService.

(** Every stored session has an expiry that can be read. *)
Definition readable (Date_parse : jsstring -> option Z) (this : t) : Prop :=
  forall k s, activeSessions this !! k = Some s ->
              exists e, Date_parse (s_expiry s) = Some e.

End Readable.

(** ** Text that does not begin with white space *)

Module Clean.

Definition starts_clean (is_space : Z -> bool) (s : list Z) : Prop :=
  match s with
  | [] => True
  | c :: _ => is_space c = false
  end.

End Clean.

(** ** src/middleware/auth.ts: requireActivation *)

Module Middleware.

Import JS.

(** [res.status(status).json({ ok: false, error })], or [next()] after
    [req.identifier] has been set. *)
Inductive outcome :=
| Responded (status : Z) (error : jsstring)
| Next (identifier : jsstring).

Section Middleware.

Variable Date_parse : jsstring -> option Z.

(** [header] is [req.headers['x-identifier']], [None] when the request
    has no such header. *)
Definition requireActivation
  (now : Z) (header : option jsstring) (activationService : ActivationService.t)
  : outcome * ActivationService.t :=
  match header with
  | None => (Responded 401 (lit "Missing identifier header"), activationService)
  | Some identifier =>
      if bool_decide (identifier = []) then
        (Responded 401 (lit "Missing identifier header"), activationService)
      else
        let (active, service') :=
          ActivationService.isActive Date_parse now identifier activationService in
        if negb active then
          (Responded 401 (lit "Invalid or expired activation"), service')
        else (Next identifier, service')
  end.

End Middleware.

End Middleware.

(** ** src/routes/index.ts: the handler of POST /activate *)

Module Routes.

Import JS.

(** What the handler observes of [req.body.key]: its type, and whether it
    is falsy.  The body has been parsed from JSON or from a URL-encoded
    form, so an object or array holds no function. *)
Inductive jsvalue :=
| VUndefined
| VNull
| VBoolean (b : bool)
| VNumber (zero_or_nan : bool)
| VString (s : jsstring)
| VObject.

Definition truthy (v : jsvalue) : bool :=
  match v with
  | VUndefined | VNull => false
  | VBoolean b => b
  | VNumber zero_or_nan => negb zero_or_nan
  | VString s => negb (bool_decide (s = []))
  | VObject => true
  end.

(** White space and line terminators, as [String.prototype.trim] takes
    them. *)
Definition is_space (c : Z) : bool :=
  ((0x09 <=? c) && (c <=? 0x0D)) || (c =? 0x20) || (c =? 0xA0)
  || (c =? 0x1680) || ((0x2000 <=? c) && (c <=? 0x200A))
  || (c =? 0x2028) || (c =? 0x2029) || (c =? 0x202F) || (c =? 0x205F)
  || (c =? 0x3000) || (c =? 0xFEFF).

Fixpoint trimStart (s : list Z) : list Z :=
  match s with
  | [] => []
  | c :: t => if is_space c then trimStart t else s
  end.

Definition trim (s : list Z) : list Z :=
  List.rev (trimStart (List.rev (trimStart s))).

(** [`${n}`] for an integer [n] of less than 22 digits. *)
Fixpoint digits (fuel : nat) (n : Z) (acc : list Z) : list Z :=
  match fuel with
  | O => acc
  | S fuel' =>
      if n <? 10 then (48 + n) :: acc
      else digits fuel' (n / 10) ((48 + n mod 10) :: acc)
  end.

Definition decimal (n : Z) : list Z :=
  if n <? 0 then 45 :: digits 22 (- n) [] else digits 22 n [].

(** [a || b] on a string that may be undefined. *)
Definition or_else (a : option jsstring) (b : jsstring) : jsstring :=
  match a with
  | Some s => if bool_decide (s = []) then b else s
  | None => b
  end.

Record ActivationResponse := {
  success : bool;
  userId : option jsstring;
  message : option jsstring;
  expiresAt : option jsstring
}.

Definition failure (text : jsstring) : ActivationResponse :=
  {| success := false; userId := None; message := Some text;
     expiresAt := None |}.

(** The argument of the first [console.log]:
    [key ? `${key.substring(0, 4)}...${key.substring(key.length - 4)}` : 'null'].
    Only a string has [substring]; on any other truthy value the call
    throws a TypeError. *)
Definition preview (key : jsvalue) : completion unit :=
  if truthy key then
    match key with
    | VString _ => Normal tt
    | _ => Throw (lit "TypeError: key.substring is not a function")
    end
  else Normal tt.

Section Routes.

Variable Date_parse : jsstring -> option Z.
Variable toISOString : Z -> jsstring.

(** [now] and [stamp] are the clock reads of activate, [clock] the value
    of both [Date.now()].  Nothing is stored before the only call that can
    throw, so the registry a caught error leaves is the one it found. *)
Definition activateBody
  (now stamp clock : Z) (key : jsvalue) (activationService : ActivationService.t)
  : completion ((Z * ActivationResponse) * ActivationService.t) :=
  _ ← preview key;
  if negb (truthy key) then
    Normal ((400, failure (lit "Missing activation key")), activationService)
  else
    match key with
    | VString s =>
        let trimmedKey := trim s in
        if bool_decide (trimmedKey = []) then
          Normal ((400, failure (lit "Activation key cannot be empty")),
                  activationService)
        else
          '(result, service') ←
            ActivationService.activate Date_parse now stamp trimmedKey
              activationService;
          if ActivationService.ok result then
            Normal
              ((200,
                {| success := true;
                   userId :=
                     Some (or_else (ActivationService.o_identifier result)
                                   (lit "user-" ++ decimal clock));
                   message := Some (lit "Activation successful");
                   expiresAt :=
                     Some (or_else (ActivationService.o_expiry result)
                                   (toISOString
                                      (clock + 365 * 24 * 60 * 60 * 1000))) |}),
               service')
          else
            Normal
              ((400,
                failure (or_else (ActivationService.o_reason result)
                                 (lit "Activation failed"))),
               service')
    | _ =>
        Normal ((400, failure (lit "Activation key must be a string")),
                activationService)
    end.

Definition activateHandler
  (now stamp clock : Z) (key : jsvalue) (activationService : ActivationService.t)
  : (Z * ActivationResponse) * ActivationService.t :=
  match activateBody now stamp clock key activationService with
  | Normal r => r
  | Throw _ => ((500, failure (lit "Internal server error")), activationService)
  end.

End Routes.

End Routes.

(** ** The two answers of the activation route to an outcome of activate *)

Module Answer.

Import JS Routes.

(** The answers to the outcome of activate. *)
Definition answer (toISOString : Z -> jsstring) (clock : Z)
  (result : ActivationService.ActivationOutcome)
  : Z * ActivationResponse :=
  if ActivationService.ok result then
    (200,
     {| success := true;
        userId := Some (or_else (ActivationService.o_identifier result)
                                (lit "user-" ++ decimal clock));
        message := Some (lit "Activation successful");
        expiresAt := Some (or_else (ActivationService.o_expiry result)
                                   (toISOString
                                      (clock + 365 * 24 * 60 * 60 * 1000))) |})
  else
    (400, failure (or_else (ActivationService.o_reason result) (lit "Activation failed"))).

End Answer.

(** ** scripts/generateKey.ts: generateDemoKey *)

Module GenerateKey.

Import JS.

Record KeyConfig := {
  identifier : jsstring;
  plan : jsstring;
  daysValid : Z;
  secret : jsstring
}.

Section GenerateKey.

Variable toISOString : Z -> jsstring.

(** [now] is the time value of [new Date()], [randomBytes] the eight bytes
    of [crypto.randomBytes(8)]; [daysValid] is a whole number of days. *)
Definition generateDemoKey (now : Z) (randomBytes : list Z) (config : KeyConfig)
  : completion jsstring :=
  let expiry := now + daysValid config * 24 * 60 * 60 * 1000 in
  let nonce := Buffer.toString_hex randomBytes in
  Hmac.createActivationKey (identifier config) (toISOString expiry)
    (plan config) nonce (secret config).

End GenerateKey.

End GenerateKey.

(** ** An instance of toISOString

    [iso_format] writes an instant of the years 0000 to 9999 as
    [YYYY-MM-DDTHH:mm:ss.sssZ]; like [Engine.iso_parse] it serves the
    concrete evaluations. *)

Module Calendar.

Import JS.

Fixpoint padded (width : nat) (n : Z) (acc : list Z) : list Z :=
  match width with
  | O => acc
  | S w => padded w (n / 10) ((48 + n mod 10) :: acc)
  end.

(** The civil date (year, month, day) of a day number counted from
    1970-01-01. *)
Definition civil_from_days (z0 : Z) : Z * Z * Z :=
  let z := z0 + 719468 in
  let era := z / 146097 in
  let doe := z - era * 146097 in
  let yoe := (doe - doe / 1460 + doe / 36524 - doe / 146096) / 365 in
  let doy := doe - (365 * yoe + yoe / 4 - yoe / 100) in
  let mp := (5 * doy + 2) / 153 in
  let d := doy - (153 * mp + 2) / 5 + 1 in
  let m := if mp <? 10 then mp + 3 else mp - 9 in
  ((yoe + era * 400 + (if m <=? 2 then 1 else 0)), m, d).

Definition iso_format (t : Z) : list Z :=
  let '(y, m, d) := civil_from_days (t / 86400000) in
  let ms := t mod 86400000 in
  padded 4 y [] ++ [45] ++ padded 2 m [] ++ [45] ++ padded 2 d [] ++ [84]
    ++ padded 2 (ms / 3600000) [] ++ [58]
    ++ padded 2 (ms / 60000 mod 60) [] ++ [58]
    ++ padded 2 (ms / 1000 mod 60) [] ++ [46]
    ++ padded 3 (ms mod 1000) [] ++ [90].

End Calendar.

(** ** More sample values *)

Module Cases.

Import JS Sample.

Definition demo_config : GenerateKey.KeyConfig :=
  {| GenerateKey.identifier := lit "demo-user-basic";
     GenerateKey.plan := lit "basic";
     GenerateKey.daysValid := 30;
     GenerateKey.secret := lit "demo_secret_change_me" |}.

Definition demo_random : list Z := [0x1f; 0x00; 0xa2; 0x7b; 0xff; 0x10; 0x03; 0xc4].

(** 2025-01-01T00:00:00.000Z. *)
Definition y2025_ms : Z := 1735689600000.

End Cases.

(** * Proofs *)

(** ** The platform model on published test vectors *)

Module PlatformChecks.

Import JS Buffer Crypto Hmac Sample.

(** FIPS 180-4, the one-block message "abc". *)
Example sha256_abc :
  toString_hex (sha256 (from_utf8 (lit "abc")))
  = lit "ba7816bf8f01cfea414140de5dae2223b00361a396177a9cb410ff61f20015ad".
Proof. vm_compute. reflexivity. Qed.

(** RFC 4231, test case 2. *)
Example hmac_sha256_jefe :
  generateSignature (lit "what do ya want for nothing?") (lit "Jefe")
  = lit "5bdcc146bf60754e6a042426089575c75a003f089d2739839dec58b964ec3843".
Proof. vm_compute. reflexivity. Qed.

(** RFC 4648, section 10. *)
Example base64_foob :
  toString_base64 (from_utf8 (lit "foob")) = lit "Zm9vYg==".
Proof. reflexivity. Qed.

Example base64UrlEncode_foob : base64UrlEncode (lit "foob") = lit "Zm9vYg".
Proof. reflexivity. Qed.

(** U+20AC and U+1F600, and an unpaired surrogate. *)
Example utf8_euro : from_utf8 [0x20AC] = [0xE2; 0x82; 0xAC].
Proof. reflexivity. Qed.

Example utf8_emoji : from_utf8 [0xD83D; 0xDE00] = [0xF0; 0x9F; 0x98; 0x80].
Proof. reflexivity. Qed.

Example utf8_lone_surrogate : from_utf8 [0xD800] = [0xEF; 0xBF; 0xBD].
Proof. reflexivity. Qed.

(** The decoder skips what is not base64 and replaces what is not UTF-8. *)
Example from_base64_forgiving :
  from_base64 (lit "Zm 9v*Yg==Zm9v") = from_utf8 (lit "foob").
Proof. reflexivity. Qed.

Example toString_utf8_replaces :
  toString_utf8 [0x61; 0xE2; 0x82; 0x62; 0xFF] = [0x61; 0xFFFD; 0x62; 0xFFFD].
Proof. reflexivity. Qed.

Example iso_parse_y2030 : Engine.iso_parse y2030 = Some y2030_ms.
Proof. reflexivity. Qed.

Example key_u1_created :
  createActivationKey u1 y2030 basic n1 secret_k = Normal key_u1.
Proof. vm_compute. reflexivity. Qed.

End PlatformChecks.

(** ** Splitting and joining text *)

Module TextFacts.

Import JS Text.

Lemma includes_app c a b : includes c (a ++ b) = includes c a || includes c b.
Proof. unfold includes. apply existsb_app. Qed.

Lemma includes_cons c x s : includes c (x :: s) = (c =? x) || includes c s.
Proof. reflexivity. Qed.

Lemma includes_false_Forall c s :
  includes c s = false <-> Forall (fun x => x <> c) s.
Proof.
  induction s as [|x s IH]; simpl.
  - split; [constructor | reflexivity].
  - rewrite orb_false_iff, IH, Forall_cons_iff, Z.eqb_neq.
    intuition congruence.
Qed.

Lemma occurrences_cons c x s :
  occurrences c (x :: s) = ((if (c =? x)%Z then 1 else 0) + occurrences c s)%nat.
Proof. unfold occurrences. simpl. destruct (c =? x); reflexivity. Qed.

Lemma occurrences_app c a b :
  occurrences c (a ++ b) = (occurrences c a + occurrences c b)%nat.
Proof.
  unfold occurrences. rewrite List.filter_app, List.length_app. reflexivity.
Qed.

Lemma occurrences_none c s : includes c s = false -> occurrences c s = 0%nat.
Proof.
  induction s as [|x s IH]; [reflexivity|].
  rewrite includes_cons, orb_false_iff, occurrences_cons.
  intros [-> H]. rewrite IH by assumption. reflexivity.
Qed.

Lemma split_nonempty c s : split c s <> [].
Proof.
  destruct s as [|x s]; simpl; [discriminate|].
  destruct (x =? c); [discriminate|].
  destruct (split c s); discriminate.
Qed.

Lemma split_cons_other c x s :
  x <> c ->
  split c (x :: s) = (x :: hd [] (split c s)) :: tl (split c s).
Proof.
  intros Hx. simpl. apply Z.eqb_neq in Hx. rewrite Hx.
  pose proof (split_nonempty c s). destruct (split c s); [congruence|reflexivity].
Qed.

(** As many pieces as separators, plus one. *)
Lemma split_length c s : List.length (split c s) = S (occurrences c s).
Proof.
  induction s as [|x s IH]; [reflexivity|].
  rewrite occurrences_cons. simpl. rewrite (Z.eqb_sym c x).
  destruct (x =? c) eqn:E; simpl.
  - rewrite IH. reflexivity.
  - pose proof (split_nonempty c s).
    destruct (split c s); [congruence|]. simpl in *. lia.
Qed.

Lemma split_none c a : includes c a = false -> split c a = [a].
Proof.
  induction a as [|x a IH]; [reflexivity|].
  rewrite includes_cons, orb_false_iff. intros [Hx Ha].
  simpl. rewrite Z.eqb_sym, Hx, IH by assumption. reflexivity.
Qed.

Lemma split_app c a b :
  includes c a = false -> split c (a ++ c :: b) = a :: split c b.
Proof.
  induction a as [|x a IH]; simpl.
  - rewrite Z.eqb_refl. reflexivity.
  - rewrite orb_false_iff. intros [Hx Ha].
    rewrite Z.eqb_sym, Hx, IH by assumption. reflexivity.
Qed.

(** What a split into given pieces says about the text. *)
Lemma split_one_inv c s h :
  split c s = [h] -> s = h /\ includes c h = false.
Proof.
  revert h. induction s as [|x s IH]; intros h; simpl.
  - intros [= <-]. split; reflexivity.
  - destruct (x =? c) eqn:E.
    + intros [= _ H]. destruct (split_nonempty _ _ H).
    + destruct (split c s) as [|h' r] eqn:Es.
      * destruct (split_nonempty _ _ Es).
      * intros [= <- ->]. destruct (IH h' eq_refl) as [-> Hh].
        split; [reflexivity|]. rewrite includes_cons, Z.eqb_sym, E. exact Hh.
Qed.

Lemma split_more_inv c s h h' r :
  split c s = h :: h' :: r ->
  exists s', s = h ++ c :: s' /\ split c s' = h' :: r /\ includes c h = false.
Proof.
  revert h. induction s as [|x s IH]; intros h; simpl.
  - discriminate.
  - destruct (x =? c) eqn:E.
    + intros [= <- Hs]. apply Z.eqb_eq in E. subst x.
      exists s. repeat split; assumption.
    + destruct (split c s) as [|g r'] eqn:Es.
      * discriminate.
      * intros [= <- ->]. destruct (IH g eq_refl) as (s' & -> & Hs' & Hg).
        exists s'. repeat split; [assumption|].
        rewrite includes_cons, Z.eqb_sym, E. exact Hg.
Qed.

Lemma split_four_inv c s :
  List.length (split c s) = 4%nat ->
  exists f1 f2 f3 f4,
    split c s = [f1; f2; f3; f4]
    /\ s = f1 ++ c :: f2 ++ c :: f3 ++ c :: f4
    /\ includes c f1 = false /\ includes c f2 = false
    /\ includes c f3 = false /\ includes c f4 = false.
Proof.
  destruct (split c s) as [|f1 [|f2 [|f3 [|f4 [|]]]]] eqn:E; try discriminate.
  intros _.
  destruct (split_more_inv _ _ _ _ _ E) as (s1 & -> & E1 & H1).
  destruct (split_more_inv _ _ _ _ _ E1) as (s2 & -> & E2 & H2).
  destruct (split_more_inv _ _ _ _ _ E2) as (s3 & -> & E3 & H3).
  destruct (split_one_inv _ _ _ E3) as [-> H4].
  exists f1, f2, f3, f4. repeat split; assumption.
Qed.

Lemma split_two_inv c s :
  List.length (split c s) = 2%nat ->
  exists f1 f2,
    split c s = [f1; f2] /\ s = f1 ++ c :: f2
    /\ includes c f1 = false /\ includes c f2 = false.
Proof.
  destruct (split c s) as [|f1 [|f2 [|]]] eqn:E; try discriminate.
  intros _.
  destruct (split_more_inv _ _ _ _ _ E) as (s1 & -> & E1 & H1).
  destruct (split_one_inv _ _ _ E1) as [-> H2].
  exists f1, f2. repeat split; assumption.
Qed.

(** Cutting at the last occurrence. *)
Lemma after_last_app c a b :
  includes c b = false -> after_last c (a ++ c :: b) = b.
Proof.
  intros Hb. induction a as [|x a IH]; simpl.
  - rewrite Hb, Z.eqb_refl. reflexivity.
  - rewrite includes_app, includes_cons, Z.eqb_refl, orb_true_r. exact IH.
Qed.

Lemma before_last_app c a b :
  includes c b = false -> before_last c (a ++ c :: b) = a.
Proof.
  intros Hb. induction a as [|x a IH]; simpl.
  - rewrite Hb. reflexivity.
  - rewrite includes_app, includes_cons, Z.eqb_refl, orb_true_r, IH.
    reflexivity.
Qed.

End TextFacts.

(** ** Signatures are lowercase hexadecimal text *)

Module SignatureFacts.

Import JS Text TextFacts Hmac.

Lemma be_bytes_bytes n x : Forall is_byte (Crypto.be_bytes n x).
Proof.
  unfold Crypto.be_bytes. apply List.Forall_forall. intros b Hb.
  apply List.in_map_iff in Hb. destruct Hb as (i & <- & _).
  unfold is_byte. apply Z.mod_pos_bound. lia.
Qed.

Lemma sha256_bytes msg : Forall is_byte (Crypto.sha256 msg).
Proof.
  unfold Crypto.sha256. apply List.Forall_forall. intros b Hb.
  apply List.in_flat_map in Hb. destruct Hb as (w & _ & Hb).
  pose proof (be_bytes_bytes 4 w) as H.
  rewrite List.Forall_forall in H. exact (H b Hb).
Qed.

Lemma hexdigit_hex v : 0 <= v < 16 -> is_hex (Buffer.hexdigit v).
Proof.
  intros Hv. unfold is_hex, Buffer.hexdigit.
  destruct (Z.ltb_spec v 10); lia.
Qed.

Lemma toString_hex_hex bs :
  Forall is_byte bs -> Forall is_hex (Buffer.toString_hex bs).
Proof.
  unfold is_byte. induction 1 as [|b bs Hb _ IH]; simpl; [constructor|].
  constructor; [|constructor; [|exact IH]]; apply hexdigit_hex.
  - split; [apply Z.div_pos; lia | apply Z.div_lt_upper_bound; lia].
  - apply Z.mod_pos_bound. lia.
Qed.

Lemma generateSignature_hex payload secret :
  Forall is_hex (generateSignature payload secret).
Proof.
  unfold generateSignature, Crypto.hmac_sha256.
  apply toString_hex_hex, sha256_bytes.
Qed.

Lemma hex_excludes c s :
  ~ is_hex c -> Forall is_hex s -> includes c s = false.
Proof.
  intros Hc Hs. apply includes_false_Forall.
  eapply List.Forall_impl; [|exact Hs]. intros x Hx ->. exact (Hc Hx).
Qed.

Lemma signature_no_pipe payload secret :
  includes PIPE (generateSignature payload secret) = false.
Proof.
  apply hex_excludes; [|apply generateSignature_hex].
  unfold is_hex, PIPE. lia.
Qed.

Lemma signature_no_dot payload secret :
  includes DOT (generateSignature payload secret) = false.
Proof.
  apply hex_excludes; [|apply generateSignature_hex].
  unfold is_hex, DOT. lia.
Qed.

End SignatureFacts.

(** ** verifyActivationKey on a decoded text of known shape *)

Module VerifyFacts.

Import JS Text TextFacts Hmac Order.

Section Facts.

Variable Date_parse : jsstring -> option Z.

Lemma split_payloadText f1 f2 f3 f4 :
  includes PIPE f1 = false -> includes PIPE f2 = false ->
  includes PIPE f3 = false -> includes PIPE f4 = false ->
  split PIPE (payloadText f1 f2 f3 f4) = [f1; f2; f3; f4].
Proof.
  intros H1 H2 H3 H4. unfold payloadText. cbn [List.app].
  rewrite !split_app by assumption. rewrite split_none by assumption.
  reflexivity.
Qed.

(** The result once both splits are known. *)
Lemma verify_of_splits now key secret f1 f2 f3 rest n sg :
  split PIPE (base64UrlDecode key) = [f1; f2; f3; rest] ->
  split DOT rest = [n; sg] ->
  verifyActivationKey Date_parse now key secret =
    Normal
      (if bool_decide (sg = generateSignature (payloadText f1 f2 f3 n) secret)
       then check_expiry Date_parse now
              {| identifier := f1; expiry := f2; plan := f3; nonce := n |}
       else Invalid SignatureMismatch).
Proof.
  intros Hp Hd. unfold verifyActivationKey, verifyBody.
  rewrite Hp. cbn [List.length Nat.eqb negb item List.nth].
  rewrite Hd. cbn [List.length Nat.eqb negb item List.nth].
  destruct (bool_decide _); cbn [negb try_catch]; [|reflexivity].
  unfold check_expiry. cbn [expiry].
  destruct (Date_parse f2) as [d|]; [|reflexivity].
  destruct (d <=? now); reflexivity.
Qed.

Lemma verify_few_fields now key secret :
  List.length (split PIPE (base64UrlDecode key)) <> 4%nat ->
  verifyActivationKey Date_parse now key secret =
    Normal (Invalid MalformedPayload).
Proof.
  intros H. unfold verifyActivationKey, verifyBody.
  apply Nat.eqb_neq in H. rewrite H. reflexivity.
Qed.

Lemma verify_bad_signature_section now key secret f1 f2 f3 rest :
  split PIPE (base64UrlDecode key) = [f1; f2; f3; rest] ->
  List.length (split DOT rest) <> 2%nat ->
  verifyActivationKey Date_parse now key secret =
    Normal (Invalid MalformedSignatureSection).
Proof.
  intros Hp H. unfold verifyActivationKey, verifyBody.
  rewrite Hp. cbn [List.length Nat.eqb negb item List.nth].
  apply Nat.eqb_neq in H. rewrite H. reflexivity.
Qed.

(** The decoded text is [f1|f2|f3|n.sg]. *)
Lemma verify_of_text now key secret f1 f2 f3 n sg :
  base64UrlDecode key = payloadText f1 f2 f3 n ++ DOT :: sg ->
  includes PIPE f1 = false -> includes PIPE f2 = false ->
  includes PIPE f3 = false -> includes PIPE n = false ->
  includes DOT n = false ->
  includes PIPE sg = false -> includes DOT sg = false ->
  verifyActivationKey Date_parse now key secret =
    Normal
      (if bool_decide (sg = generateSignature (payloadText f1 f2 f3 n) secret)
       then check_expiry Date_parse now
              {| identifier := f1; expiry := f2; plan := f3; nonce := n |}
       else Invalid SignatureMismatch).
Proof.
  intros Hdec H1 H2 H3 Hn Hnd Hsg Hsgd.
  apply verify_of_splits with (rest := n ++ DOT :: sg).
  - rewrite Hdec. unfold payloadText.
    rewrite <- !List.app_assoc. cbn [List.app].
    rewrite !split_app by assumption.
    rewrite split_none; [reflexivity|].
    rewrite includes_app, includes_cons, Hn, Hsg. reflexivity.
  - rewrite split_app by assumption. rewrite split_none by assumption.
    reflexivity.
Qed.

(** Every call returns, with Valid or with one of the reasons that the
    body itself gives. *)
Lemma verify_returns now key secret :
  exists r : VerificationResult,
    verifyActivationKey Date_parse now key secret = Normal r
    /\ ((exists p, r = Valid p)
        \/ (exists why, r = Invalid why /\ why <> MalformedEncoding)).
Proof.
  unfold verifyActivationKey, verifyBody.
  repeat match goal with
         | |- context [if ?b then _ else _] => destruct b
         end;
    try (eexists; split; [reflexivity|];
         right; eexists; split; [reflexivity|discriminate]).
  destruct (Date_parse _) as [d|].
  - destruct (d <=? now); eexists; (split; [reflexivity|]).
    + right. eexists. split; [reflexivity|discriminate].
    + left. eexists. reflexivity.
  - eexists. split; [reflexivity|].
    right. eexists. split; [reflexivity|discriminate].
Qed.

End Facts.

End VerifyFacts.

(** ** base64: Buffer.from(s, 'base64') undoes buf.toString('base64'),
    also through the URL-safe substitution *)

Module Base64Facts.

Import JS Text Buffer.

Ltac dlia := Z.div_mod_to_equations; lia.

Ltac plain t :=
  lazymatch t with
  | context [if _ then _ else _] => fail
  | _ => idtac
  end.

Ltac cases_on_tests :=
  repeat match goal with
    | |- context [?a <? ?b] =>
        plain a; plain b; destruct (Z.ltb_spec a b); try lia
    | |- context [?a <=? ?b] =>
        plain a; plain b; destruct (Z.leb_spec a b); try lia
    | |- context [?a =? ?b] =>
        plain a; plain b; destruct (Z.eqb_spec a b); try lia
    end.

(** Induction over a buffer three bytes at a time. *)
Lemma bytes_by_three (P : list Z -> Prop) :
  P [] -> (forall a, P [a]) -> (forall a b, P [a; b]) ->
  (forall a b c t, P t -> P (a :: b :: c :: t)) ->
  forall l, P l.
Proof.
  intros H0 H1 H2 H3 l.
  cut (P l /\ (forall a, P (a :: l)) /\ (forall a b, P (a :: b :: l))).
  { intros [H _]. exact H. }
  induction l as [|c t (IH0 & IH1 & IH2)].
  - repeat split; auto.
  - split; [apply IH1|]. split; [intros a; apply IH2|].
    intros a b. apply H3, IH0.
Qed.

Lemma toString_base64_shape bs :
  toString_base64 bs
  = List.map b64char (sextets bs) ++ List.repeat EQUALS (padding bs).
Proof.
  induction bs as [| a | a b | a b c t IH] using bytes_by_three;
    try reflexivity.
  cbn [toString_base64 sextets padding List.map List.app]. rewrite IH.
  reflexivity.
Qed.

Lemma sextets_range bs : Forall is_byte bs -> Forall is_sextet (sextets bs).
Proof.
  unfold is_byte, is_sextet.
  induction bs as [| a | a b | a b c t IH] using bytes_by_three; intros H.
  - constructor.
  - inversion_clear H. repeat constructor; dlia.
  - inversion_clear H as [|? ? Ha H']. inversion_clear H' as [|? ? Hb _].
    repeat constructor; dlia.
  - inversion_clear H as [|? ? Ha H']. inversion_clear H' as [|? ? Hb H''].
    inversion_clear H'' as [|? ? Hc Ht].
    cbn [sextets List.app].
    repeat (constructor; [dlia|]). exact (IH Ht).
Qed.

Lemma base64_groups_sextets bs :
  Forall is_byte bs -> base64_groups (sextets bs) = bs.
Proof.
  unfold is_byte.
  induction bs as [| a | a b | a b c t IH] using bytes_by_three; intros H.
  - reflexivity.
  - inversion_clear H. cbn. f_equal. dlia.
  - inversion_clear H as [|? ? Ha H']. inversion_clear H' as [|? ? Hb _].
    cbn. f_equal; [dlia|]. f_equal. dlia.
  - inversion_clear H as [|? ? Ha H']. inversion_clear H' as [|? ? Hb H''].
    inversion_clear H'' as [|? ? Hc Ht].
    cbn [sextets List.app base64_groups]. rewrite (IH Ht).
    f_equal; [dlia|]. f_equal; [dlia|]. f_equal. dlia.
Qed.

Lemma b64char_ascii v : is_sextet v -> 43 <= b64char v <= 122.
Proof.
  unfold is_sextet, b64char, PLUS, SLASH. intros Hv. cases_on_tests.
Qed.

Lemma b64char_not_equals v : is_sextet v -> b64char v <> EQUALS.
Proof.
  unfold is_sextet, b64char, PLUS, SLASH, EQUALS. intros Hv. cases_on_tests.
Qed.

Lemma to_url_not_equals v : is_sextet v -> to_url (b64char v) <> EQUALS.
Proof.
  intros Hv. pose proof (b64char_not_equals v Hv) as H. revert H.
  unfold to_url, swap, PLUS, SLASH, MINUS, UNDERSCORE, EQUALS.
  generalize (b64char v). intros c Hc. cases_on_tests.
Qed.

Lemma of_url_to_url v : is_sextet v -> of_url (to_url (b64char v)) = b64char v.
Proof.
  unfold is_sextet, b64char, of_url, to_url, swap,
    PLUS, SLASH, MINUS, UNDERSCORE.
  intros Hv. cases_on_tests.
Qed.

Lemma unbase64_b64char v : is_sextet v -> unbase64 (b64char v) = Some v.
Proof.
  unfold is_sextet, b64char, unbase64, PLUS, SLASH, MINUS, UNDERSCORE.
  intros Hv. cases_on_tests; cbn; f_equal; lia.
Qed.

Lemma replaceAll_cons a b c s :
  replaceAll a b (c :: s) = swap a b c :: replaceAll a b s.
Proof. reflexivity. Qed.

Lemma removeAll_cons a c s :
  removeAll a (c :: s)
  = if c =? a then removeAll a s else c :: removeAll a s.
Proof. unfold removeAll. cbn. destruct (c =? a); reflexivity. Qed.

Lemma replaceAll_app a b s1 s2 :
  replaceAll a b (s1 ++ s2) = replaceAll a b s1 ++ replaceAll a b s2.
Proof. apply List.map_app. Qed.

Lemma removeAll_app a s1 s2 :
  removeAll a (s1 ++ s2) = removeAll a s1 ++ removeAll a s2.
Proof. apply List.filter_app. Qed.

Lemma padding_removed k :
  removeAll EQUALS
    (replaceAll SLASH UNDERSCORE
       (replaceAll PLUS MINUS (List.repeat EQUALS k))) = [].
Proof. induction k as [|k IH]; [reflexivity|]. cbn. exact IH. Qed.

(** base64UrlEncode leaves the URL-safe characters of the sextets. *)
Lemma url_text_of_sextets vs k :
  Forall is_sextet vs ->
  removeAll EQUALS
    (replaceAll SLASH UNDERSCORE
       (replaceAll PLUS MINUS
          (List.map b64char vs ++ List.repeat EQUALS k)))
  = List.map (fun v => to_url (b64char v)) vs.
Proof.
  intros Hvs.
  rewrite !replaceAll_app, removeAll_app, padding_removed, List.app_nil_r.
  induction Hvs as [|v vs Hv _ IH]; [reflexivity|].
  cbn [List.map]. rewrite !replaceAll_cons, removeAll_cons.
  fold (to_url (b64char v)).
  pose proof (to_url_not_equals v Hv) as Hne. apply Z.eqb_neq in Hne.
  rewrite Hne, IH. reflexivity.
Qed.

(** The decoder reads them back, whatever the number of '=' added. *)
Lemma base64_sextets_of_url vs k :
  Forall is_sextet vs ->
  base64_sextets
    (replaceAll UNDERSCORE SLASH
       (replaceAll MINUS PLUS (List.map (fun v => to_url (b64char v)) vs))
     ++ List.repeat EQUALS k)
  = vs.
Proof.
  intros Hvs.
  induction Hvs as [|v vs Hv _ IH].
  - destruct k; reflexivity.
  - cbn [List.map]. rewrite !replaceAll_cons.
    fold (of_url (to_url (b64char v))).
    cbn [List.app base64_sextets].
    rewrite (of_url_to_url v Hv).
    pose proof (b64char_ascii v Hv) as Hr.
    rewrite Z.mod_small by lia.
    pose proof (b64char_not_equals v Hv) as Hne. apply Z.eqb_neq in Hne.
    rewrite Hne, (unbase64_b64char v Hv), IH. reflexivity.
Qed.

Lemma from_base64_of_url bs k :
  Forall is_byte bs ->
  from_base64
    (replaceAll UNDERSCORE SLASH
       (replaceAll MINUS PLUS
          (removeAll EQUALS
             (replaceAll SLASH UNDERSCORE
                (replaceAll PLUS MINUS (toString_base64 bs)))))
     ++ List.repeat EQUALS k)
  = bs.
Proof.
  intros Hbs. unfold from_base64.
  rewrite toString_base64_shape.
  rewrite url_text_of_sextets by (apply sextets_range; exact Hbs).
  rewrite base64_sextets_of_url by (apply sextets_range; exact Hbs).
  apply base64_groups_sextets. exact Hbs.
Qed.

End Base64Facts.

(** ** UTF-8: buf.toString('utf-8') undoes Buffer.from(str) on well-formed
    strings *)

Module Utf8Facts.

Import JS Text Buffer.
Import Base64Facts.

Lemma is_high_true c : is_high c = true <-> 0xD800 <= c <= 0xDBFF.
Proof. unfold is_high. rewrite andb_true_iff, !Z.leb_le. reflexivity. Qed.

Lemma is_low_true c : is_low c = true <-> 0xDC00 <= c <= 0xDFFF.
Proof. unfold is_low. rewrite andb_true_iff, !Z.leb_le. reflexivity. Qed.

Lemma is_high_false c : is_high c = false <-> ~ (0xD800 <= c <= 0xDBFF).
Proof. rewrite <- is_high_true. destruct (is_high c); intuition congruence. Qed.

Lemma is_low_false c : is_low c = false <-> ~ (0xDC00 <= c <= 0xDFFF).
Proof. rewrite <- is_low_true. destruct (is_low c); intuition congruence. Qed.

(** Induction along the code points of a well-formed string. *)
Lemma well_formed_ind (P : list Z -> Prop) :
  P [] ->
  (forall c t, is_scalar_unit c -> well_formed t = true -> P t -> P (c :: t)) ->
  (forall c d t, is_high c = true -> is_low d = true ->
                 well_formed t = true -> P t -> P (c :: d :: t)) ->
  forall s, well_formed s = true -> P s.
Proof.
  intros H0 H1 H2 s.
  cut ((well_formed s = true -> P s)
       /\ forall c, well_formed (c :: s) = true -> P (c :: s)).
  { intros [H _]. exact H. }
  induction s as [|d t [IHt IHd]].
  - split; [intros _; exact H0|].
    intros c. cbn [well_formed]. destruct (is_high c) eqn:Hc; [discriminate|].
    rewrite !andb_true_iff, Z.leb_le, Z.ltb_lt, negb_true_iff.
    intros [[[? ?] Hl] _]. apply H1; [|reflexivity|exact H0].
    apply is_high_false in Hc. apply is_low_false in Hl.
    unfold is_scalar_unit. lia.
  - split; [apply IHd|].
    intros c. cbn [well_formed]. destruct (is_high c) eqn:Hc.
    + rewrite andb_true_iff. intros [Hd Ht]. apply H2; auto.
    + rewrite !andb_true_iff, Z.leb_le, Z.ltb_lt, negb_true_iff.
      intros [[[? ?] Hl] Hw]. apply H1; [|exact Hw|exact (IHd d Hw)].
      apply is_high_false in Hc. apply is_low_false in Hl.
      unfold is_scalar_unit. lia.
Qed.

Lemma from_utf8_scalar c t :
  is_scalar_unit c -> from_utf8 (c :: t) = encode_unit c ++ from_utf8 t.
Proof.
  intros [Hr Hs]. cbn [from_utf8]. unfold encode_unit.
  destruct (c <? 0x80); [reflexivity|].
  destruct (c <? 0x800); [reflexivity|].
  assert (is_high c = false) as -> by (apply is_high_false; lia).
  assert (is_low c = false) as -> by (apply is_low_false; lia).
  reflexivity.
Qed.

Lemma from_utf8_pair c d t :
  is_high c = true -> is_low d = true ->
  from_utf8 (c :: d :: t) = utf8_4 (pair_code_point c d) ++ from_utf8 t.
Proof.
  intros Hc Hd. cbn [from_utf8]. rewrite Hc, Hd.
  apply is_high_true in Hc.
  destruct (Z.ltb_spec c 0x80); [lia|].
  destruct (Z.ltb_spec c 0x800); [lia|]. reflexivity.
Qed.

(** The encoder produces bytes. *)
Lemma encode_unit_bytes c : is_scalar_unit c -> Forall is_byte (encode_unit c).
Proof.
  unfold is_scalar_unit, encode_unit, utf8_1, utf8_2, utf8_3, is_byte.
  intros [Hr _].
  destruct (Z.ltb_spec c 0x80); [|destruct (Z.ltb_spec c 0x800)];
    repeat constructor; dlia.
Qed.

Lemma pair_code_point_range c d :
  is_high c = true -> is_low d = true ->
  0x10000 <= pair_code_point c d < 0x110000.
Proof.
  rewrite is_high_true, is_low_true. unfold pair_code_point. lia.
Qed.

Lemma utf8_4_bytes cp : 0x10000 <= cp < 0x110000 -> Forall is_byte (utf8_4 cp).
Proof. unfold utf8_4, is_byte. intros H. repeat constructor; dlia. Qed.

Lemma from_utf8_bytes s : well_formed s = true -> Forall is_byte (from_utf8 s).
Proof.
  revert s. apply well_formed_ind.
  - constructor.
  - intros c t Hc _ IH. rewrite from_utf8_scalar by exact Hc.
    apply Forall_app. split; [apply encode_unit_bytes; exact Hc|exact IH].
  - intros c d t Hc Hd _ IH. rewrite from_utf8_pair by assumption.
    apply Forall_app. split; [|exact IH].
    apply utf8_4_bytes, pair_code_point_range; assumption.
Qed.

(** The decoder, one step at a time. *)
Lemma run_idle b t :
  utf8_run Idle (b :: t) = fst (utf8_lead b) ++ utf8_run (snd (utf8_lead b)) t.
Proof. reflexivity. Qed.

Lemma run_last cp lo hi b t :
  lo <= b <= hi ->
  utf8_run (Pending cp 0 lo hi) (b :: t)
  = utf16_units (cp * 64 + b mod 64) ++ utf8_run Idle t.
Proof.
  intros H. cbn [utf8_run].
  destruct (Z.leb_spec lo b); [|lia]. destruct (Z.leb_spec b hi); [|lia].
  reflexivity.
Qed.

Lemma run_more cp m lo hi b t :
  lo <= b <= hi ->
  utf8_run (Pending cp (S m) lo hi) (b :: t)
  = utf8_run (Pending (cp * 64 + b mod 64) m 0x80 0xBF) t.
Proof.
  intros H. cbn [utf8_run].
  destruct (Z.leb_spec lo b); [|lia]. destruct (Z.leb_spec b hi); [|lia].
  reflexivity.
Qed.

Lemma lead_1 b : b <= 0x7F -> utf8_lead b = ([b], Idle).
Proof. intros H. unfold utf8_lead. cases_on_tests. reflexivity. Qed.

Lemma lead_2 b :
  0xC2 <= b <= 0xDF -> utf8_lead b = ([], Pending (b mod 32) 0 0x80 0xBF).
Proof. intros H. unfold utf8_lead. cases_on_tests. reflexivity. Qed.

Lemma lead_3 b :
  0xE0 <= b <= 0xEF ->
  utf8_lead b = ([], Pending (b mod 16) 1
                             (if b =? 0xE0 then 0xA0 else 0x80)
                             (if b =? 0xED then 0x9F else 0xBF)).
Proof.
  intros H. unfold utf8_lead.
  destruct (Z.leb_spec b 0x7F); [lia|].
  destruct (Z.leb_spec 0xC2 b); [|lia].
  destruct (Z.leb_spec b 0xDF); [lia|].
  destruct (Z.leb_spec 0xE0 b); [|lia].
  destruct (Z.leb_spec b 0xEF); [|lia]. reflexivity.
Qed.

Lemma lead_4 b :
  0xF0 <= b <= 0xF4 ->
  utf8_lead b = ([], Pending (b mod 8) 2
                             (if b =? 0xF0 then 0x90 else 0x80)
                             (if b =? 0xF4 then 0x8F else 0xBF)).
Proof.
  intros H. unfold utf8_lead.
  destruct (Z.leb_spec b 0x7F); [lia|].
  destruct (Z.leb_spec 0xC2 b); [|lia].
  destruct (Z.leb_spec b 0xDF); [lia|].
  destruct (Z.leb_spec 0xE0 b); [|lia].
  destruct (Z.leb_spec b 0xEF); [lia|].
  destruct (Z.leb_spec 0xF0 b); [|lia].
  destruct (Z.leb_spec b 0xF4); [|lia]. reflexivity.
Qed.

Lemma utf16_units_bmp c : c < 0x10000 -> utf16_units c = [c].
Proof. intros H. unfold utf16_units. destruct (Z.ltb_spec c 0x10000); [reflexivity|lia]. Qed.

Lemma utf16_units_pair c d :
  is_high c = true -> is_low d = true ->
  utf16_units (pair_code_point c d) = [c; d].
Proof.
  intros Hc Hd. pose proof (pair_code_point_range c d Hc Hd) as Hr.
  unfold utf16_units. destruct (Z.ltb_spec (pair_code_point c d) 0x10000); [lia|].
  apply is_high_true in Hc. apply is_low_true in Hd.
  unfold pair_code_point in *. f_equal; [dlia|]. f_equal. dlia.
Qed.

Ltac settle := cases_on_tests; dlia.

Ltac code_point c :=
  match goal with
  | |- utf16_units ?x ++ _ = _ => replace x with c by dlia
  end.

Lemma run_encode_unit c r :
  is_scalar_unit c -> utf8_run Idle (encode_unit c ++ r) = c :: utf8_run Idle r.
Proof.
  intros [Hr Hs]. unfold encode_unit.
  destruct (Z.ltb_spec c 0x80); [|destruct (Z.ltb_spec c 0x800)].
  - unfold utf8_1. cbn [List.app]. rewrite run_idle, lead_1 by lia. reflexivity.
  - unfold utf8_2. cbn [List.app].
    rewrite run_idle, lead_2 by dlia. cbn [fst snd List.app].
    rewrite run_last by dlia. code_point c.
    rewrite utf16_units_bmp by lia. reflexivity.
  - unfold utf8_3. cbn [List.app].
    rewrite run_idle, lead_3 by dlia. cbn [fst snd List.app].
    rewrite run_more by settle. rewrite run_last by dlia. code_point c.
    rewrite utf16_units_bmp by lia. reflexivity.
Qed.

Lemma run_utf8_4 cp r :
  0x10000 <= cp < 0x110000 ->
  utf8_run Idle (utf8_4 cp ++ r) = utf16_units cp ++ utf8_run Idle r.
Proof.
  intros Hr. unfold utf8_4. cbn [List.app].
  rewrite run_idle, lead_4 by dlia. cbn [fst snd List.app].
  rewrite run_more by settle. rewrite run_more by dlia.
  rewrite run_last by dlia. code_point cp. reflexivity.
Qed.

Theorem toString_from_utf8 s :
  well_formed s = true -> toString_utf8 (from_utf8 s) = s.
Proof.
  unfold toString_utf8. revert s. apply well_formed_ind.
  - reflexivity.
  - intros c t Hc _ IH.
    rewrite from_utf8_scalar, run_encode_unit, IH by exact Hc. reflexivity.
  - intros c d t Hc Hd _ IH.
    rewrite from_utf8_pair by assumption.
    rewrite run_utf8_4 by (apply pair_code_point_range; assumption).
    rewrite utf16_units_pair, IH by assumption. reflexivity.
Qed.

(** Well-formed strings are closed under concatenation, and text below
    the surrogates is well formed. *)
Lemma well_formed_app a b :
  well_formed a = true -> well_formed b = true -> well_formed (a ++ b) = true.
Proof.
  intros Ha Hb. revert a Ha. apply well_formed_ind.
  - exact Hb.
  - intros c t [Hr Hs] _ IH. cbn [List.app well_formed].
    assert (is_high c = false) as -> by (apply is_high_false; lia).
    assert (is_low c = false) as -> by (apply is_low_false; lia).
    rewrite IH. cbn [negb].
    destruct (Z.leb_spec 0 c); [|lia]. destruct (Z.ltb_spec c 0x10000); [|lia].
    reflexivity.
  - intros c d t Hc Hd _ IH. cbn [List.app well_formed].
    rewrite Hc, Hd, IH. reflexivity.
Qed.

Lemma well_formed_below s :
  Forall (fun c => 0 <= c < 0xD800) s -> well_formed s = true.
Proof.
  induction 1 as [|c s Hc _ IH]; [reflexivity|].
  cbn [well_formed].
  assert (is_high c = false) as -> by (apply is_high_false; lia).
  assert (is_low c = false) as -> by (apply is_low_false; lia).
  rewrite IH. cbn [negb].
  destruct (Z.leb_spec 0 c); [|lia]. destruct (Z.ltb_spec c 0x10000); [|lia].
  reflexivity.
Qed.

(** *** Strings with unpaired surrogates *)

Lemma code_units_cons c t :
  code_units (c :: t) = true <-> 0 <= c < 0x10000 /\ code_units t = true.
Proof.
  unfold code_units. cbn [List.forallb].
  rewrite !andb_true_iff, Z.leb_le, Z.ltb_lt. tauto.
Qed.

Lemma code_units_app a b :
  code_units (a ++ b) = code_units a && code_units b.
Proof. apply List.forallb_app. Qed.

Lemma well_formed_code_units s : well_formed s = true -> code_units s = true.
Proof.
  revert s. apply well_formed_ind.
  - reflexivity.
  - intros c t [Hr _] _ IH. apply code_units_cons. auto.
  - intros c d t Hc Hd _ IH.
    apply is_high_true in Hc. apply is_low_true in Hd.
    apply code_units_cons. split; [lia|].
    apply code_units_cons. split; [lia|exact IH].
Qed.

(** Induction along the code points and stray surrogates of a string. *)
Lemma code_units_ind (P : list Z -> Prop) :
  P [] ->
  (forall c t, is_scalar_unit c -> code_units t = true -> P t -> P (c :: t)) ->
  (forall c d t, is_high c = true -> is_low d = true ->
                 code_units t = true -> P t -> P (c :: d :: t)) ->
  (forall c t, lone c t -> code_units t = true -> P t -> P (c :: t)) ->
  forall s, code_units s = true -> P s.
Proof.
  intros H0 H1 H2 H3 s.
  cut ((code_units s = true -> P s)
       /\ forall c, code_units (c :: s) = true -> P (c :: s)).
  { intros [H _]. exact H. }
  assert (single : forall c t, 0 <= c < 0x10000 -> code_units t = true ->
                     P t -> is_low (List.hd 0 t) = false -> P (c :: t)).
  { intros c t Hr Ht HP Hhd.
    destruct (is_high c) eqn:Hc.
    - apply H3; [right; auto | exact Ht | exact HP].
    - destruct (is_low c) eqn:Hl.
      + apply H3; [left; auto | exact Ht | exact HP].
      + apply H1; [|exact Ht|exact HP].
        apply is_high_false in Hc. apply is_low_false in Hl.
        unfold is_scalar_unit. lia. }
  induction s as [|d t [IHt IHd]].
  - split; [intros _; exact H0|].
    intros c Hc. apply code_units_cons in Hc. destruct Hc as [Hr _].
    apply single; auto.
  - split; [apply IHd|].
    intros c Hc. apply code_units_cons in Hc. destruct Hc as [Hr Hdt].
    pose proof Hdt as Hdt'. apply code_units_cons in Hdt'.
    destruct Hdt' as [_ Ht].
    destruct (is_low d) eqn:Hd.
    + destruct (is_high c) eqn:Hc.
      * apply H2; auto.
      * destruct (is_low c) eqn:Hl.
        -- apply H3; [left; auto | exact Hdt | exact (IHd d Hdt)].
        -- apply H1; [|exact Hdt|exact (IHd d Hdt)].
           apply is_high_false in Hc. apply is_low_false in Hl.
           unfold is_scalar_unit. lia.
    + apply single; auto.
Qed.

Lemma is_scalar_unit_tests c :
  is_scalar_unit c -> is_high c = false /\ is_low c = false.
Proof.
  intros [Hr Hs]. split; [apply is_high_false | apply is_low_false]; lia.
Qed.

Lemma toWellFormed_scalar c t :
  is_scalar_unit c -> toWellFormed (c :: t) = c :: toWellFormed t.
Proof.
  intros Hc. destruct (is_scalar_unit_tests c Hc) as [Hh Hl].
  cbn [toWellFormed]. rewrite Hh, Hl. reflexivity.
Qed.

Lemma toWellFormed_pair c d t :
  is_high c = true -> is_low d = true ->
  toWellFormed (c :: d :: t) = c :: d :: toWellFormed t.
Proof. intros Hc Hd. cbn [toWellFormed]. rewrite Hc, Hd. reflexivity. Qed.

Lemma high_not_low c : is_high c = true -> is_low c = false.
Proof. rewrite is_high_true, is_low_false. lia. Qed.

Lemma toWellFormed_lone c t :
  lone c t -> toWellFormed (c :: t) = REPLACEMENT :: toWellFormed t.
Proof.
  intros [Hl | [Hh Hd]]; cbn [toWellFormed].
  - assert (is_high c = false) as ->
        by (apply is_low_true in Hl; apply is_high_false; lia).
    rewrite Hl. reflexivity.
  - rewrite Hh. destruct t as [|d t']; [reflexivity|].
    cbn [List.hd] in Hd. rewrite Hd. reflexivity.
Qed.

Lemma from_utf8_lone c t :
  lone c t -> from_utf8 (c :: t) = utf8_3 REPLACEMENT ++ from_utf8 t.
Proof.
  intros Hlone. cbn [from_utf8].
  assert (0xD800 <= c) as Hs.
  { destruct Hlone as [Hl | [Hh _]];
      [apply is_low_true in Hl | apply is_high_true in Hh]; lia. }
  destruct (Z.ltb_spec c 0x80); [lia|].
  destruct (Z.ltb_spec c 0x800); [lia|].
  destruct Hlone as [Hl | [Hh Hd]].
  - assert (is_high c = false) as ->
        by (apply is_low_true in Hl; apply is_high_false; lia).
    rewrite Hl. reflexivity.
  - rewrite Hh. destruct t as [|d t']; [reflexivity|].
    cbn [List.hd] in Hd. rewrite Hd. reflexivity.
Qed.

Lemma replacement_scalar : is_scalar_unit REPLACEMENT.
Proof. unfold is_scalar_unit, REPLACEMENT. lia. Qed.

(** Buffer.from does not tell a string from its well-formed version. *)
Lemma from_utf8_toWellFormed s :
  code_units s = true -> from_utf8 (toWellFormed s) = from_utf8 s.
Proof.
  revert s. apply code_units_ind.
  - reflexivity.
  - intros c t Hc _ IH.
    rewrite toWellFormed_scalar, !from_utf8_scalar, IH by exact Hc.
    reflexivity.
  - intros c d t Hc Hd _ IH.
    rewrite toWellFormed_pair, !from_utf8_pair, IH by assumption.
    reflexivity.
  - intros c t Hlone Ht IH. rewrite toWellFormed_lone by exact Hlone.
    rewrite from_utf8_scalar by exact replacement_scalar.
    rewrite from_utf8_lone, IH by exact Hlone. reflexivity.
Qed.

Lemma well_formed_scalar c t :
  is_scalar_unit c -> well_formed (c :: t) = well_formed t.
Proof.
  intros Hc. destruct (is_scalar_unit_tests c Hc) as [Hh Hl].
  destruct Hc as [Hr _]. cbn [well_formed]. rewrite Hh, Hl.
  destruct (Z.leb_spec 0 c); [|lia]. destruct (Z.ltb_spec c 0x10000); [|lia].
  reflexivity.
Qed.

Lemma well_formed_toWellFormed s :
  code_units s = true -> well_formed (toWellFormed s) = true.
Proof.
  revert s. apply code_units_ind.
  - reflexivity.
  - intros c t Hc _ IH.
    rewrite toWellFormed_scalar, well_formed_scalar by exact Hc. exact IH.
  - intros c d t Hc Hd _ IH. rewrite toWellFormed_pair by assumption.
    cbn [well_formed]. rewrite Hc, Hd. exact IH.
  - intros c t Hlone _ IH. rewrite toWellFormed_lone by exact Hlone.
    rewrite well_formed_scalar by exact replacement_scalar. exact IH.
Qed.

Lemma toWellFormed_well_formed s :
  well_formed s = true -> toWellFormed s = s.
Proof.
  revert s. apply well_formed_ind.
  - reflexivity.
  - intros c t Hc _ IH. rewrite toWellFormed_scalar, IH by exact Hc.
    reflexivity.
  - intros c d t Hc Hd _ IH. rewrite toWellFormed_pair, IH by assumption.
    reflexivity.
Qed.

(** A separator that is no surrogate keeps the two sides apart. *)
Lemma toWellFormed_sep a c b :
  code_units a = true -> is_scalar_unit c ->
  toWellFormed (a ++ c :: b) = toWellFormed a ++ c :: toWellFormed b.
Proof.
  intros Ha Hc. revert a Ha. apply code_units_ind.
  - apply toWellFormed_scalar. exact Hc.
  - intros c0 t Hc0 _ IH. cbn [List.app].
    rewrite !toWellFormed_scalar, IH by exact Hc0. reflexivity.
  - intros c0 d t Hc0 Hd _ IH. cbn [List.app].
    rewrite !toWellFormed_pair, IH by assumption. reflexivity.
  - intros c0 t Hlone _ IH. cbn [List.app].
    rewrite (toWellFormed_lone c0 t) by exact Hlone.
    rewrite toWellFormed_lone, IH; [reflexivity|].
    destruct Hlone as [Hl | [Hh Hd]]; [left; exact Hl|right].
    split; [exact Hh|]. destruct t as [|d t']; [|exact Hd].
    apply is_scalar_unit_tests. exact Hc.
Qed.

Lemma includes_toWellFormed c s :
  code_units s = true -> is_scalar_unit c -> c <> REPLACEMENT ->
  includes c (toWellFormed s) = includes c s.
Proof.
  intros Hs Hc Hne. revert s Hs. apply code_units_ind.
  - reflexivity.
  - intros c0 t Hc0 _ IH. rewrite toWellFormed_scalar by exact Hc0.
    rewrite !TextFacts.includes_cons, IH. reflexivity.
  - intros c0 d t Hc0 Hd _ IH. rewrite toWellFormed_pair by assumption.
    rewrite !TextFacts.includes_cons, IH. reflexivity.
  - intros c0 t Hlone _ IH. rewrite toWellFormed_lone by exact Hlone.
    rewrite !TextFacts.includes_cons, IH.
    apply Z.eqb_neq in Hne. rewrite Hne.
    assert (c <> c0) as Hc0.
    { destruct Hc as [_ Hs]. intros ->. apply Hs.
      destruct Hlone as [Hl | [Hh _]];
        [apply is_low_true in Hl | apply is_high_true in Hh]; lia. }
    apply Z.eqb_neq in Hc0. rewrite Hc0. reflexivity.
Qed.

Lemma from_utf8_bytes_of_units s :
  code_units s = true -> Forall is_byte (from_utf8 s).
Proof.
  intros Hs. rewrite <- from_utf8_toWellFormed by exact Hs.
  apply from_utf8_bytes, well_formed_toWellFormed. exact Hs.
Qed.

Theorem toString_from_utf8_units s :
  code_units s = true -> toString_utf8 (from_utf8 s) = toWellFormed s.
Proof.
  intros Hs. rewrite <- from_utf8_toWellFormed by exact Hs.
  apply toString_from_utf8, well_formed_toWellFormed. exact Hs.
Qed.

End Utf8Facts.

(** ** base64UrlDecode undoes base64UrlEncode *)

Module CodecFacts.

Import JS Text TextFacts Hmac.

(** In general the round trip gives the well-formed version back. *)
Lemma base64Url_roundtrip s :
  code_units s = true ->
  base64UrlDecode (base64UrlEncode s) = toWellFormed s.
Proof.
  intros Hs. unfold base64UrlDecode, base64UrlEncode, JS.repeat.
  rewrite Base64Facts.from_base64_of_url
    by (apply Utf8Facts.from_utf8_bytes_of_units; exact Hs).
  apply Utf8Facts.toString_from_utf8_units. exact Hs.
Qed.

Lemma well_formed_hex s : Forall is_hex s -> well_formed s = true.
Proof.
  intros H. apply Utf8Facts.well_formed_below.
  eapply List.Forall_impl; [|exact H].
  unfold is_hex. intros c Hc. lia.
Qed.

Lemma pipe_scalar : is_scalar_unit PIPE.
Proof. unfold is_scalar_unit, PIPE. lia. Qed.

Lemma dot_scalar : is_scalar_unit DOT.
Proof. unfold is_scalar_unit, DOT. lia. Qed.

Lemma code_units_payloadText f1 f2 f3 f4 :
  code_units f1 = true -> code_units f2 = true ->
  code_units f3 = true -> code_units f4 = true ->
  code_units (payloadText f1 f2 f3 f4) = true.
Proof.
  intros H1 H2 H3 H4. unfold payloadText.
  rewrite !Utf8Facts.code_units_app, H1, H2, H3, H4. reflexivity.
Qed.

Lemma toWellFormed_payloadText f1 f2 f3 f4 :
  code_units f1 = true -> code_units f2 = true ->
  code_units f3 = true -> code_units f4 = true ->
  toWellFormed (payloadText f1 f2 f3 f4)
  = payloadText (toWellFormed f1) (toWellFormed f2)
                (toWellFormed f3) (toWellFormed f4).
Proof.
  intros H1 H2 H3 H4. unfold payloadText. cbn [List.app].
  rewrite !Utf8Facts.toWellFormed_sep by (assumption || exact pipe_scalar).
  reflexivity.
Qed.

(** The signature depends on the UTF-8 bytes of the payload only. *)
Lemma generateSignature_toWellFormed payload secret :
  code_units payload = true ->
  generateSignature (toWellFormed payload) secret
  = generateSignature payload secret.
Proof.
  intros H. unfold generateSignature.
  rewrite Utf8Facts.from_utf8_toWellFormed by exact H. reflexivity.
Qed.

Section Created.

Variable Date_parse : jsstring -> option Z.

(** Verification of a key that createActivationKey made. *)
Lemma verify_created now f1 f2 f3 n made_with secret :
  code_units f1 = true -> code_units f2 = true ->
  code_units f3 = true -> code_units n = true ->
  includes PIPE f1 = false -> includes PIPE f2 = false ->
  includes PIPE f3 = false -> includes PIPE n = false ->
  includes DOT n = false ->
  (key ← createActivationKey f1 f2 f3 n made_with;
   verifyActivationKey Date_parse now key secret)
  = Normal
      (if bool_decide (generateSignature (payloadText f1 f2 f3 n) made_with
                       = generateSignature (payloadText f1 f2 f3 n) secret)
       then Order.check_expiry Date_parse now
              {| identifier := toWellFormed f1; expiry := toWellFormed f2;
                 plan := toWellFormed f3; nonce := toWellFormed n |}
       else Invalid SignatureMismatch).
Proof.
  intros W1 W2 W3 Wn H1 H2 H3 Hn Hd.
  pose proof (code_units_payloadText _ _ _ _ W1 W2 W3 Wn) as Wp.
  set (sg := generateSignature (payloadText f1 f2 f3 n) made_with).
  assert (Wsg : well_formed sg = true)
    by apply well_formed_hex, SignatureFacts.generateSignature_hex.
  unfold createActivationKey. cbn [mbind completion_bind]. fold sg.
  rewrite <- (generateSignature_toWellFormed _ secret Wp).
  rewrite toWellFormed_payloadText by assumption.
  apply VerifyFacts.verify_of_text.
  - rewrite base64Url_roundtrip.
    + cbn [List.app].
      rewrite Utf8Facts.toWellFormed_sep by (exact Wp || exact dot_scalar).
      rewrite toWellFormed_payloadText by assumption.
      rewrite (Utf8Facts.toWellFormed_well_formed sg Wsg). reflexivity.
    + rewrite !Utf8Facts.code_units_app, Wp.
      rewrite (Utf8Facts.well_formed_code_units sg Wsg). reflexivity.
  - rewrite Utf8Facts.includes_toWellFormed;
      [assumption | assumption | exact pipe_scalar | discriminate].
  - rewrite Utf8Facts.includes_toWellFormed;
      [assumption | assumption | exact pipe_scalar | discriminate].
  - rewrite Utf8Facts.includes_toWellFormed;
      [assumption | assumption | exact pipe_scalar | discriminate].
  - rewrite Utf8Facts.includes_toWellFormed;
      [assumption | assumption | exact pipe_scalar | discriminate].
  - rewrite Utf8Facts.includes_toWellFormed;
      [assumption | assumption | exact dot_scalar | discriminate].
  - apply SignatureFacts.signature_no_pipe.
  - apply SignatureFacts.signature_no_dot.
Qed.

End Created.

End CodecFacts.

(** * The token codec *)

Module TokenCodec.

Import JS Text TextFacts Hmac Order Sample.

(** C1, as the code has it: for every claims quadruple of well-formed
    strings in which no field contains the field delimiter, whose nonce
    contains no dot, and whose expiry is a future instant, and for every
    secret, verifying the key made by createActivationKey with the same
    secret returns Valid with exactly those four fields. *)
Theorem roundtrip_of_created_key
  (Date_parse : jsstring -> option Z) (now t : Z)
  (id e p n secret : jsstring) :
  well_formed id = true -> well_formed e = true ->
  well_formed p = true -> well_formed n = true ->
  includes PIPE id = false -> includes PIPE e = false ->
  includes PIPE p = false -> includes PIPE n = false ->
  includes DOT n = false ->
  Date_parse e = Some t -> now < t ->
  (key ← createActivationKey id e p n secret;
   verifyActivationKey Date_parse now key secret)
  = Normal (Valid {| identifier := id; expiry := e; plan := p; nonce := n |}).
Proof.
  intros W1 W2 W3 W4 H1 H2 H3 H4 Hd He Hlt.
  rewrite CodecFacts.verify_created
    by (assumption || (apply Utf8Facts.well_formed_code_units; assumption)).
  rewrite bool_decide_eq_true_2 by reflexivity.
  rewrite !Utf8Facts.toWellFormed_well_formed by assumption.
  unfold check_expiry. cbn [expiry]. rewrite He.
  destruct (Z.leb_spec t now); [lia|reflexivity].
Qed.

Lemma roundtrip_of_created_key_witness :
  (key ← createActivationKey u1 y2030 basic n1 secret_k;
   verifyActivationKey Engine.iso_parse 0 key secret_k)
  = Normal (Valid {| identifier := u1; expiry := y2030;
                     plan := basic; nonce := n1 |}).
Proof.
  apply (roundtrip_of_created_key Engine.iso_parse 0 y2030_ms
           u1 y2030 basic n1 secret_k);
    try (vm_compute; reflexivity).
Defined.

(** C1 as stated fails: a nonce may hold a dot without holding the field
    delimiter, and then the key is rejected; and an identifier that is an
    unpaired surrogate comes back as U+FFFD. *)
Lemma roundtrip_fails_for_dotted_nonce :
  includes PIPE u1 = false /\ includes PIPE y2030 = false
  /\ includes PIPE basic = false /\ includes PIPE (lit "a.b") = false
  /\ includes PIPE [0xD800] = false /\ includes PIPE n1 = false
  /\ Engine.iso_parse y2030 = Some y2030_ms /\ 0 < y2030_ms
  /\ (key ← createActivationKey u1 y2030 basic (lit "a.b") secret_k;
      verifyActivationKey Engine.iso_parse 0 key secret_k)
     = Normal (Invalid MalformedSignatureSection)
  /\ (key ← createActivationKey [0xD800] y2030 basic n1 secret_k;
      verifyActivationKey Engine.iso_parse 0 key secret_k)
     = Normal (Valid {| identifier := [0xFFFD]; expiry := y2030;
                        plan := basic; nonce := n1 |}).
Proof. repeat apply conj; vm_compute; reflexivity. Qed.

(** C2, as the code has it: after decoding, the text is first split on
    the field delimiter, MalformedPayload unless exactly four fields
    result; only then is the fourth field split on the dot,
    MalformedSignatureSection unless exactly two parts result; both
    structural checks come before the signature check, which comes before
    the expiry checks. *)
Theorem checks_in_source_order
  (Date_parse : jsstring -> option Z) (now : Z) (key secret : jsstring) :
  verifyActivationKey Date_parse now key secret
  = Normal (verify_code_order Date_parse now key secret).
Proof.
  unfold verify_code_order.
  pose proof (split_length PIPE (base64UrlDecode key)) as HL.
  destruct (Nat.eqb (occurrences PIPE (base64UrlDecode key)) 3) eqn:E3;
    cbn [negb].
  2:{ apply VerifyFacts.verify_few_fields. apply Nat.eqb_neq in E3. lia. }
  apply Nat.eqb_eq in E3. rewrite E3 in HL.
  destruct (split_four_inv _ _ HL)
    as (f1 & f2 & f3 & rest & Hs & Hd & H1 & H2 & H3 & H4).
  assert (Hrest : after_last PIPE (base64UrlDecode key) = rest).
  { rewrite Hd.
    change (f1 ++ PIPE :: f2 ++ PIPE :: f3 ++ PIPE :: rest)
      with (f1 ++ [PIPE] ++ f2 ++ [PIPE] ++ f3 ++ PIPE :: rest).
    rewrite !List.app_assoc. apply after_last_app. exact H4. }
  rewrite Hrest.
  pose proof (split_length DOT rest) as HR.
  destruct (Nat.eqb (occurrences DOT rest) 1) eqn:E1; cbn [negb].
  2:{ eapply VerifyFacts.verify_bad_signature_section; [exact Hs|].
      apply Nat.eqb_neq in E1. lia. }
  apply Nat.eqb_eq in E1. rewrite E1 in HR.
  destruct (split_two_inv _ _ HR) as (n & sg & Hr & -> & Hn & Hsg).
  rewrite includes_app, includes_cons, orb_false_iff, orb_false_iff in H4.
  destruct H4 as (Hnp & _ & Hsgp).
  assert (Hd' : base64UrlDecode key = payloadText f1 f2 f3 n ++ DOT :: sg).
  { rewrite Hd. unfold payloadText.
    rewrite <- !List.app_assoc. reflexivity. }
  rewrite (VerifyFacts.verify_of_splits Date_parse now key secret _ _ _ _ _ _ Hs Hr).
  rewrite Hd'.
  rewrite before_last_app, after_last_app by assumption.
  destruct (bool_decide _); cbn [negb]; [|reflexivity].
  rewrite VerifyFacts.split_payloadText by assumption. reflexivity.
Qed.

(** C2 as stated fails: "YWJj" decodes to "abc", which has no dot; the
    order of the design document rejects it for its signature section,
    the code for its payload. *)
Lemma checks_not_in_spec_order :
  base64UrlDecode (lit "YWJj") = lit "abc"
  /\ verify_spec_order Engine.iso_parse 0 (lit "YWJj") secret_k
     = Invalid MalformedSignatureSection
  /\ verifyActivationKey Engine.iso_parse 0 (lit "YWJj") secret_k
     = Normal (Invalid MalformedPayload).
Proof. repeat apply conj; vm_compute; reflexivity. Qed.

(** C3, as the code has it: for every claims quadruple of strings without
    field delimiter and with a dot-free nonce, and every pair of secrets
    under which the payload has different signatures, verifying with one
    secret a key made with the other returns SignatureMismatch. *)
Theorem wrong_secret_is_signature_mismatch
  (Date_parse : jsstring -> option Z) (now : Z)
  (id e p n secretA secretB : jsstring) :
  code_units id = true -> code_units e = true ->
  code_units p = true -> code_units n = true ->
  includes PIPE id = false -> includes PIPE e = false ->
  includes PIPE p = false -> includes PIPE n = false ->
  includes DOT n = false ->
  generateSignature (payloadText id e p n) secretA
    <> generateSignature (payloadText id e p n) secretB ->
  (key ← createActivationKey id e p n secretA;
   verifyActivationKey Date_parse now key secretB)
  = Normal (Invalid SignatureMismatch).
Proof.
  intros W1 W2 W3 W4 H1 H2 H3 H4 Hd Hne.
  rewrite CodecFacts.verify_created by assumption.
  rewrite bool_decide_eq_false_2 by exact Hne. reflexivity.
Qed.

Lemma wrong_secret_is_signature_mismatch_witness :
  (key ← createActivationKey u1 y2030 basic n1 secret_k;
   verifyActivationKey Engine.iso_parse 0 key secret_j)
  = Normal (Invalid SignatureMismatch).
Proof.
  apply (wrong_secret_is_signature_mismatch Engine.iso_parse 0
           u1 y2030 basic n1 secret_k secret_j);
    try (vm_compute; reflexivity).
  vm_compute. discriminate.
Defined.

(** C3 as stated fails twice over.  HMAC fills a short key with zero
    bytes, so the secrets "k" and "k" followed by U+0000 differ and yet
    sign alike: the key is Valid.  And a quadruple whose identifier holds
    the field delimiter is rejected for its payload before any signature
    is looked at. *)
Lemma wrong_secret_not_always_mismatch :
  secret_k <> secret_k ++ [0]
  /\ (key ← createActivationKey u1 y2030 basic n1 secret_k;
      verifyActivationKey Engine.iso_parse 0 key (secret_k ++ [0]))
     = Normal (Valid {| identifier := u1; expiry := y2030;
                        plan := basic; nonce := n1 |})
  /\ secret_k <> secret_j
  /\ (key ← createActivationKey (lit "a|b") y2030 basic n1 secret_k;
      verifyActivationKey Engine.iso_parse 0 key secret_j)
     = Normal (Invalid MalformedPayload).
Proof.
  repeat apply conj; try (vm_compute; reflexivity); vm_compute; discriminate.
Qed.

(** C4: for a key whose decoded text is four delimiter-free fields, the
    nonce dot-free, followed by a dot and the signature of those fields
    under the secret, and whose expiry denotes the instant [t]:
    verification returns Expired when [t] is now or earlier, and Valid
    with the four fields when [t] is strictly later than now. *)
Theorem expiry_boundary
  (Date_parse : jsstring -> option Z) (now t : Z)
  (key secret id e p n : jsstring) :
  base64UrlDecode key
    = payloadText id e p n
        ++ DOT :: generateSignature (payloadText id e p n) secret ->
  includes PIPE id = false -> includes PIPE e = false ->
  includes PIPE p = false -> includes PIPE n = false ->
  includes DOT n = false ->
  Date_parse e = Some t ->
  (t <= now ->
   verifyActivationKey Date_parse now key secret = Normal (Invalid Expired))
  /\ (now < t ->
      verifyActivationKey Date_parse now key secret
      = Normal (Valid {| identifier := id; expiry := e;
                         plan := p; nonce := n |})).
Proof.
  intros Hk H1 H2 H3 H4 Hd He.
  rewrite (VerifyFacts.verify_of_text Date_parse now key secret
             id e p n _ Hk H1 H2 H3 H4 Hd
             (SignatureFacts.signature_no_pipe _ _)
             (SignatureFacts.signature_no_dot _ _)).
  rewrite bool_decide_eq_true_2 by reflexivity.
  unfold check_expiry. cbn [expiry]. rewrite He.
  split; intros Ht; destruct (Z.leb_spec t now); (lia || reflexivity).
Qed.

Lemma expiry_boundary_witness :
  verifyActivationKey Engine.iso_parse y2030_ms key_u1 secret_k
    = Normal (Invalid Expired)
  /\ verifyActivationKey Engine.iso_parse (y2030_ms - 1) key_u1 secret_k
     = Normal (Valid {| identifier := u1; expiry := y2030;
                        plan := basic; nonce := n1 |}).
Proof.
  split.
  - apply (expiry_boundary Engine.iso_parse y2030_ms y2030_ms
             key_u1 secret_k u1 y2030 basic n1);
      try (vm_compute; reflexivity). lia.
  - apply (expiry_boundary Engine.iso_parse (y2030_ms - 1) y2030_ms
             key_u1 secret_k u1 y2030 basic n1);
      vm_compute; reflexivity.
Defined.

(** C5 at a failing input: "***" holds no character of the encoding's
    alphabet, and verification reports a malformed payload, not a
    malformed encoding. *)
Theorem invalid_encoding_reported_as_payload
  (Date_parse : jsstring -> option Z) (now : Z) (secret : jsstring) :
  validly_encoded (lit "***") = false
  /\ verifyActivationKey Date_parse now (lit "***") secret
     = Normal (Invalid MalformedPayload).
Proof. split; reflexivity. Qed.

(** No key at all is reported as MalformedEncoding. *)
Lemma never_malformed_encoding
  (Date_parse : jsstring -> option Z) (now : Z) (key secret : jsstring) :
  verifyActivationKey Date_parse now key secret
  <> Normal (Invalid MalformedEncoding).
Proof.
  destruct (VerifyFacts.verify_returns Date_parse now key secret)
    as (r & -> & [[p ->] | (why & -> & Hne)]); [discriminate|].
  destruct why; try discriminate. congruence.
Qed.

(** C6, as the code has it: createActivationKey has no error path; it
    returns a key for all inputs, those holding the field delimiter
    included. *)
Theorem createActivationKey_never_throws
  (id e p n secret : jsstring) :
  threw (createActivationKey id e p n secret) = false.
Proof. reflexivity. Qed.

(** C6 as stated fails: an identifier holding the field delimiter is
    accepted and a key is returned. *)
Lemma delimiter_in_identifier_accepted :
  includes PIPE (lit "a|b") = true
  /\ threw (createActivationKey (lit "a|b") y2030 basic n1 secret_k) = false.
Proof. split; reflexivity. Qed.

(** C9: for every key string and every secret, verifyActivationKey
    returns a VerificationResult, Valid or Invalid with one of the six
    reasons, and never throws. *)
Theorem verifyActivationKey_total
  (Date_parse : jsstring -> option Z) (now : Z) (key secret : jsstring) :
  exists r : VerificationResult,
    verifyActivationKey Date_parse now key secret = Normal r
    /\ ((exists p, r = Valid p) \/ (exists why, r = Invalid why)).
Proof.
  destruct (VerifyFacts.verify_returns Date_parse now key secret)
    as (r & Hr & [Hvalid | (why & Hwhy & _)]).
  - exists r. split; [exact Hr|left; exact Hvalid].
  - exists r. split; [exact Hr|right; exists why; exact Hwhy].
Qed.

End TokenCodec.

(** * The session registry *)

Module SessionRegistry.

Import JS Text Hmac ActivationService Invariant Sample.

Section Registry.

Variable Date_parse : jsstring -> option Z.

Lemma activate_outcome now stamp key this :
  (exists why,
      verifyActivationKey Date_parse now key (secret this)
        = Normal (Invalid why)
      /\ activate Date_parse now stamp key this
         = Normal (Rejected (Some (reason_text why)), this))
  \/ (exists p,
         verifyActivationKey Date_parse now key (secret this)
           = Normal (Valid p)
         /\ activate Date_parse now stamp key this
            = Normal
                (Accepted (identifier p) (plan p) (expiry p),
                 with_sessions this
                   (<[identifier p :=
                        {| s_identifier := identifier p; s_plan := plan p;
                           s_expiry := expiry p; activatedAt := stamp |}]>
                      (activeSessions this)))).
Proof.
  destruct (VerifyFacts.verify_returns Date_parse now key (secret this))
    as (r & Hr & [[p ->] | (why & -> & _)]).
  - right. exists p. split; [exact Hr|].
    unfold activate. rewrite Hr. reflexivity.
  - left. exists why. split; [exact Hr|].
    unfold activate. rewrite Hr. reflexivity.
Qed.

Lemma key_consistent_new secret : key_consistent (new secret).
Proof. intros k s. cbn. rewrite lookup_empty. discriminate. Qed.

Lemma key_consistent_after c this :
  key_consistent this -> key_consistent (after Date_parse c this).
Proof.
  intros Hinv. destruct c as [now stamp key | now id | id | now];
    cbn [after].
  - destruct (activate_outcome now stamp key this)
      as [(why & _ & ->) | (p & _ & ->)]; [exact Hinv|].
    intros k s. cbn [activeSessions with_sessions].
    destruct (decide (identifier p = k)) as [<- | Hne].
    + rewrite lookup_insert_eq. intros [= <-]. reflexivity.
    + rewrite lookup_insert_ne by exact Hne. apply Hinv.
  - unfold isActive. destruct (activeSessions this !! id) as [s0|];
      [|exact Hinv].
    destruct (expired Date_parse now s0); [|exact Hinv].
    intros k s. cbn [snd activeSessions with_sessions].
    intros H. apply lookup_delete_Some in H. apply Hinv, H.
  - exact Hinv.
  - intros k s. cbn [cleanExpiredSessions activeSessions with_sessions].
    intros H. apply map_lookup_filter_Some in H. apply Hinv, H.
Qed.

End Registry.

(** C7: isActive returns false when no session is stored; when the stored
    session's expiry is now or earlier it deletes the entry and returns
    false, and getSession then finds nothing; when the expiry is strictly
    later than now it returns true and changes nothing. *)
Theorem isActive_lazy_expiry
  (Date_parse : jsstring -> option Z) (now : Z) (id : jsstring) (this : t) :
  (getSession id this = None ->
   isActive Date_parse now id this = (false, this))
  /\ (forall s e, getSession id this = Some s ->
                  Date_parse (s_expiry s) = Some e -> e <= now ->
                  isActive Date_parse now id this
                  = (false,
                     with_sessions this (delete id (activeSessions this)))
                  /\ getSession id (snd (isActive Date_parse now id this))
                     = None)
  /\ (forall s e, getSession id this = Some s ->
                  Date_parse (s_expiry s) = Some e -> now < e ->
                  isActive Date_parse now id this = (true, this)).
Proof.
  unfold getSession, isActive, expired. repeat apply conj.
  - intros ->. reflexivity.
  - intros s e -> -> He. destruct (Z.leb_spec e now); [|lia].
    split; [reflexivity|]. cbn [snd activeSessions with_sessions].
    apply lookup_delete_eq.
  - intros s e -> -> He. destruct (Z.leb_spec e now); [lia|]. reflexivity.
Qed.

Lemma isActive_lazy_expiry_witness :
  isActive Engine.iso_parse 0 (lit "u2") service_u1 = (false, service_u1)
  /\ (isActive Engine.iso_parse y2030_ms u1 service_u1
      = (false,
         with_sessions service_u1 (delete u1 (activeSessions service_u1)))
      /\ getSession u1 (snd (isActive Engine.iso_parse y2030_ms u1 service_u1))
         = None)
  /\ isActive Engine.iso_parse 0 u1 service_u1 = (true, service_u1).
Proof.
  repeat apply conj.
  - apply (isActive_lazy_expiry Engine.iso_parse 0 (lit "u2") service_u1).
    vm_compute; reflexivity.
  - apply (proj1 (proj2 (isActive_lazy_expiry
                           Engine.iso_parse y2030_ms u1 service_u1))
             session_u1 y2030_ms);
      [vm_compute; reflexivity | vm_compute; reflexivity | lia].
  - apply (proj1 (proj2 (isActive_lazy_expiry
                           Engine.iso_parse y2030_ms u1 service_u1))
             session_u1 y2030_ms);
      [vm_compute; reflexivity | vm_compute; reflexivity | lia].
  - apply (proj2 (proj2 (isActive_lazy_expiry
                           Engine.iso_parse 0 u1 service_u1))
             session_u1 y2030_ms);
      vm_compute; reflexivity.
Defined.

(** C8: for every key, either verification returns Invalid with a reason,
    and then activate returns the rejected outcome carrying that reason
    and leaves the registry as it was; or verification returns Valid, and
    then activate returns the accepted outcome with the verified
    identifier, plan and expiry, and stores the new session under that
    identifier whatever was stored there before, all other entries
    unchanged. *)
Theorem activate_postcondition
  (Date_parse : jsstring -> option Z) (now stamp : Z)
  (key : jsstring) (this : t) :
  (exists why,
      verifyActivationKey Date_parse now key (secret this)
        = Normal (Invalid why)
      /\ activate Date_parse now stamp key this
         = Normal (Rejected (Some (reason_text why)), this))
  \/ (exists p this',
         verifyActivationKey Date_parse now key (secret this)
           = Normal (Valid p)
         /\ activate Date_parse now stamp key this
            = Normal (Accepted (identifier p) (plan p) (expiry p), this')
         /\ secret this' = secret this
         /\ getSession (identifier p) this'
            = Some {| s_identifier := identifier p; s_plan := plan p;
                      s_expiry := expiry p; activatedAt := stamp |}
         /\ forall other, other <> identifier p ->
                          getSession other this' = getSession other this).
Proof.
  destruct (activate_outcome Date_parse now stamp key this)
    as [(why & Hv & Ha) | (p & Hv & Ha)].
  - left. exists why. split; assumption.
  - right. eexists p, _. split; [exact Hv|]. split; [exact Ha|].
    unfold getSession. cbn [secret activeSessions with_sessions].
    split; [reflexivity|]. split; [apply lookup_insert_eq|].
    intros other Hne. apply lookup_insert_ne. congruence.
Qed.

(** C10: in every registry reached from the empty one by any sequence of
    activate, isActive, getSession and cleanExpiredSessions calls, every
    entry's session records the identifier it is stored under. *)
Theorem reachable_key_consistent
  (Date_parse : jsstring -> option Z) (secret : jsstring)
  (calls : list (call)) :
  key_consistent (run Date_parse calls (new secret)).
Proof.
  unfold run. generalize (key_consistent_new secret).
  generalize (new secret). induction calls as [|c calls IH]; intros this Hinv.
  - exact Hinv.
  - cbn [List.fold_left]. apply IH, key_consistent_after, Hinv.
Qed.

End SessionRegistry.

(** * Further properties of the code *)

(** ** The shape of encoded text and of signatures *)

Module ShapeFacts.

Import JS Text TextFacts Buffer Base64Facts.

Lemma url_safe_of_sextet v :
  is_sextet v -> url_safe_char (to_url (b64char v)) = true.
Proof.
  unfold is_sextet, url_safe_char, to_url, swap, b64char,
    PLUS, SLASH, MINUS, UNDERSCORE.
  intros Hv. cases_on_tests; reflexivity.
Qed.

Lemma sextets_length bs :
  Z.of_nat (List.length (sextets bs)) mod 4 <> 1.
Proof.
  induction bs as [| a | a b | a b c t IH] using bytes_by_three;
    try (vm_compute; discriminate).
  cbn [sextets List.app List.length].
  rewrite !Nat2Z.inj_succ. revert IH.
  generalize (Z.of_nat (List.length (sextets t))). intros n Hn. dlia.
Qed.

Lemma sextets_nonempty bs : bs <> [] -> sextets bs <> [].
Proof.
  destruct bs as [|a [|b [|c t]]]; [congruence| | |]; intros _; discriminate.
Qed.

(** base64UrlEncode written on the sextets of the UTF-8 bytes. *)
Lemma base64UrlEncode_shape s :
  code_units s = true ->
  Hmac.base64UrlEncode s
  = List.map (fun v => to_url (b64char v)) (sextets (from_utf8 s)).
Proof.
  intros Hs. unfold Hmac.base64UrlEncode.
  rewrite toString_base64_shape.
  apply url_text_of_sextets, sextets_range,
    Utf8Facts.from_utf8_bytes_of_units, Hs.
Qed.

(** The digest has 32 bytes. *)
Lemma round_length st kw :
  List.length st = 8%nat -> List.length (Crypto.round st kw) = 8%nat.
Proof.
  intros H.
  destruct st as [|a [|b [|c [|d [|e [|f [|g [|h [|]]]]]]]]];
    try discriminate. reflexivity.
Qed.

Lemma rounds_length kws st :
  List.length st = 8%nat ->
  List.length (List.fold_left Crypto.round kws st) = 8%nat.
Proof.
  revert st. induction kws as [|kw kws IH]; intros st H; [exact H|].
  cbn [List.fold_left]. apply IH, round_length, H.
Qed.

Lemma compress_length h block :
  List.length h = 8%nat -> List.length (Crypto.compress h block) = 8%nat.
Proof.
  intros H. unfold Crypto.compress.
  rewrite List.length_map, List.length_combine, rounds_length, H by exact H.
  reflexivity.
Qed.

Lemma blocks_length n ws h :
  List.length h = 8%nat -> List.length (Crypto.blocks n ws h) = 8%nat.
Proof.
  revert ws h. induction n as [|n IH]; intros ws h H; [exact H|].
  cbn [Crypto.blocks]. apply IH, compress_length, H.
Qed.

Lemma be_bytes_length n x : List.length (Crypto.be_bytes n x) = n.
Proof.
  unfold Crypto.be_bytes.
  rewrite List.length_map, List.length_rev, List.length_seq. reflexivity.
Qed.

Lemma flat_map_length_const {A B} (f : A -> list B) k l :
  (forall x, List.length (f x) = k) ->
  List.length (List.flat_map f l) = (k * List.length l)%nat.
Proof.
  intros Hf. induction l as [|x l IH]; cbn [List.flat_map List.length].
  - lia.
  - rewrite List.length_app, Hf, IH. lia.
Qed.

Lemma sha256_length msg : List.length (Crypto.sha256 msg) = 32%nat.
Proof.
  unfold Crypto.sha256.
  rewrite (flat_map_length_const _ 4%nat) by (intros; apply be_bytes_length).
  rewrite blocks_length by reflexivity. reflexivity.
Qed.

Lemma toString_hex_length bs :
  List.length (toString_hex bs) = (2 * List.length bs)%nat.
Proof.
  unfold toString_hex. apply flat_map_length_const. reflexivity.
Qed.

End ShapeFacts.

(** ** Laws of the codec *)

Module CodecLaws.

Import JS Text TextFacts Hmac Order Sample.

(** X1: base64UrlDecode undoes base64UrlEncode on every well-formed
    string; on a string with unpaired surrogates it gives the string with
    each of them replaced by U+FFFD. *)
Theorem base64Url_decode_encode (s : jsstring) :
  code_units s = true ->
  base64UrlDecode (base64UrlEncode s) = toWellFormed s
  /\ (well_formed s = true -> base64UrlDecode (base64UrlEncode s) = s).
Proof.
  intros Hs. split.
  - apply CodecFacts.base64Url_roundtrip, Hs.
  - intros Hw. rewrite CodecFacts.base64Url_roundtrip by exact Hs.
    apply Utf8Facts.toWellFormed_well_formed, Hw.
Qed.

Lemma base64Url_decode_encode_witness :
  base64UrlDecode (base64UrlEncode (lit "a|b.c") ) = lit "a|b.c"
  /\ base64UrlDecode (base64UrlEncode [0x61; 0xDC00]) = [0x61; 0xFFFD].
Proof.
  split.
  - apply (base64Url_decode_encode (lit "a|b.c")); reflexivity.
  - apply (base64Url_decode_encode [0x61; 0xDC00]). reflexivity.
Defined.

(** X2: the text base64UrlEncode returns holds only letters, digits, '-'
    and '_' (no '+', '/' or '='), and its length is never 1 modulo 4. *)
Theorem base64UrlEncode_url_safe (s : jsstring) :
  code_units s = true -> validly_encoded (base64UrlEncode s) = true.
Proof.
  intros Hs. unfold validly_encoded.
  rewrite ShapeFacts.base64UrlEncode_shape by exact Hs.
  apply andb_true_iff. split.
  - apply List.forallb_forall. intros c Hc.
    apply List.in_map_iff in Hc. destruct Hc as (v & <- & Hv).
    apply ShapeFacts.url_safe_of_sextet.
    pose proof (Base64Facts.sextets_range (Buffer.from_utf8 s)
                  (Utf8Facts.from_utf8_bytes_of_units s Hs)) as Hr.
    rewrite List.Forall_forall in Hr. exact (Hr v Hv).
  - rewrite List.length_map. apply negb_true_iff, Z.eqb_neq.
    apply ShapeFacts.sextets_length.
Qed.

Lemma base64UrlEncode_url_safe_witness :
  validly_encoded (base64UrlEncode (lit "?>?>|~~")) = true.
Proof. apply (base64UrlEncode_url_safe (lit "?>?>|~~")). reflexivity. Defined.

(** X3: whatever the payload and the secret, the empty ones included, the
    signature is a text of exactly 64 lowercase hexadecimal digits. *)
Theorem generateSignature_format (payload secret : jsstring) :
  List.length (generateSignature payload secret) = 64%nat
  /\ Forall is_hex (generateSignature payload secret).
Proof.
  split; [|apply SignatureFacts.generateSignature_hex].
  unfold generateSignature, Crypto.hmac_sha256.
  rewrite ShapeFacts.toString_hex_length, ShapeFacts.sha256_length.
  reflexivity.
Qed.

End CodecLaws.

(** ** More on verification *)

Module VerifyMore.

Import JS Text TextFacts Buffer Hmac Order.

(** *** Buffer.from across a separator *)

Lemma from_utf8_sep a c b :
  code_units a = true -> is_scalar_unit c ->
  from_utf8 (a ++ c :: b) = from_utf8 a ++ encode_unit c ++ from_utf8 b.
Proof.
  intros Ha Hc. revert a Ha. apply Utf8Facts.code_units_ind.
  - apply Utf8Facts.from_utf8_scalar. exact Hc.
  - intros c0 t Hc0 _ IH. cbn [List.app].
    rewrite !Utf8Facts.from_utf8_scalar, IH by exact Hc0.
    rewrite <- List.app_assoc. reflexivity.
  - intros c0 d t Hc0 Hd _ IH. cbn [List.app].
    rewrite !Utf8Facts.from_utf8_pair, IH by assumption.
    rewrite <- List.app_assoc. reflexivity.
  - intros c0 t Hlone _ IH. cbn [List.app].
    rewrite (Utf8Facts.from_utf8_lone c0 t) by exact Hlone.
    rewrite Utf8Facts.from_utf8_lone, IH.
    + rewrite <- List.app_assoc. reflexivity.
    + destruct Hlone as [Hl | [Hh Hd]]; [left; exact Hl|right].
      split; [exact Hh|]. destruct t as [|d t']; [|exact Hd].
      apply Utf8Facts.is_scalar_unit_tests. exact Hc.
Qed.

Lemma from_utf8_nul a :
  code_units a = true -> from_utf8 (a ++ [0]) = from_utf8 a ++ [0].
Proof.
  intros Ha. rewrite from_utf8_sep; [reflexivity|exact Ha|].
  unfold is_scalar_unit. lia.
Qed.

(** *** HMAC fills a short key with zero bytes *)

Lemma block_key_nul key :
  (List.length key < 64)%nat ->
  Crypto.block_key (key ++ [0]) = Crypto.block_key key.
Proof.
  intros Hlen. unfold Crypto.block_key.
  rewrite List.length_app. cbn [List.length].
  destruct (Z.ltb_spec 64 (Z.of_nat (List.length key + 1))); [lia|].
  destruct (Z.ltb_spec 64 (Z.of_nat (List.length key))); [lia|].
  rewrite List.length_app. cbn [List.length].
  rewrite <- List.app_assoc. f_equal. cbn [List.app].
  replace (64 - List.length key)%nat
    with (S (64 - (List.length key + 1)))%nat by lia.
  reflexivity.
Qed.

Lemma generateSignature_nul payload secret :
  code_units secret = true ->
  (List.length (from_utf8 secret) < 64)%nat ->
  generateSignature payload (secret ++ [0]) = generateSignature payload secret.
Proof.
  intros Hs Hlen. unfold generateSignature, Crypto.hmac_sha256.
  rewrite from_utf8_nul, block_key_nul by assumption. reflexivity.
Qed.

(** *** Counting separators *)

Lemma includes_occurrences c s :
  includes c s = true -> (1 <= occurrences c s)%nat.
Proof.
  induction s as [|x s IH]; [discriminate|].
  rewrite includes_cons, occurrences_cons.
  destruct (c =? x); [lia|]. cbn [orb]. intros H. specialize (IH H). lia.
Qed.

Lemma occurrences_toWellFormed c s :
  code_units s = true -> is_scalar_unit c -> c <> REPLACEMENT ->
  occurrences c (toWellFormed s) = occurrences c s.
Proof.
  intros Hs Hc Hne. revert s Hs. apply Utf8Facts.code_units_ind.
  - reflexivity.
  - intros c0 t Hc0 _ IH. rewrite Utf8Facts.toWellFormed_scalar by exact Hc0.
    rewrite !occurrences_cons, IH. reflexivity.
  - intros c0 d t Hc0 Hd _ IH. rewrite Utf8Facts.toWellFormed_pair by assumption.
    rewrite !occurrences_cons, IH. reflexivity.
  - intros c0 t Hlone _ IH. rewrite Utf8Facts.toWellFormed_lone by exact Hlone.
    rewrite !occurrences_cons, IH.
    apply Z.eqb_neq in Hne. rewrite Hne.
    assert (c <> c0) as Hc0.
    { destruct Hc as [_ Hs]. intros ->. apply Hs.
      destruct Hlone as [Hl | [Hh _]];
        [apply Utf8Facts.is_low_true in Hl
        | apply Utf8Facts.is_high_true in Hh]; lia. }
    apply Z.eqb_neq in Hc0. rewrite Hc0. reflexivity.
Qed.

(** *** The decoded text of an encoded payload and signature *)

Lemma decoded_text f1 f2 f3 n sg :
  code_units f1 = true -> code_units f2 = true ->
  code_units f3 = true -> code_units n = true ->
  well_formed sg = true ->
  base64UrlDecode (base64UrlEncode (payloadText f1 f2 f3 n ++ [DOT] ++ sg))
  = payloadText (toWellFormed f1) (toWellFormed f2)
                (toWellFormed f3) (toWellFormed n) ++ DOT :: sg.
Proof.
  intros W1 W2 W3 Wn Wsg.
  pose proof (CodecFacts.code_units_payloadText _ _ _ _ W1 W2 W3 Wn) as Wp.
  rewrite CodecFacts.base64Url_roundtrip.
  - cbn [List.app].
    rewrite Utf8Facts.toWellFormed_sep
      by (exact Wp || exact CodecFacts.dot_scalar).
    rewrite CodecFacts.toWellFormed_payloadText by assumption.
    rewrite (Utf8Facts.toWellFormed_well_formed sg Wsg). reflexivity.
  - rewrite !Utf8Facts.code_units_app, Wp.
    rewrite (Utf8Facts.well_formed_code_units sg Wsg). reflexivity.
Qed.

Lemma split_decoded f1 f2 f3 rest :
  includes PIPE f1 = false -> includes PIPE f2 = false ->
  includes PIPE f3 = false -> includes PIPE rest = false ->
  split PIPE (payloadText f1 f2 f3 rest) = [f1; f2; f3; rest].
Proof. apply VerifyFacts.split_payloadText. Qed.

Lemma payloadText_dot f1 f2 f3 n sg :
  payloadText f1 f2 f3 n ++ DOT :: sg = payloadText f1 f2 f3 (n ++ DOT :: sg).
Proof. unfold payloadText. rewrite <- !List.app_assoc. reflexivity. Qed.

Lemma occurrences_payloadText c f1 f2 f3 f4 :
  c = PIPE ->
  occurrences c (payloadText f1 f2 f3 f4)
  = (3 + occurrences c f1 + occurrences c f2
       + occurrences c f3 + occurrences c f4)%nat.
Proof.
  intros ->. unfold payloadText. cbn [List.app].
  rewrite !occurrences_app, !occurrences_cons, !occurrences_app,
    !occurrences_cons, !occurrences_app, !occurrences_cons.
  rewrite Z.eqb_refl. lia.
Qed.

Section More.

Variable Date_parse : jsstring -> option Z.

(** *** What a Valid result tells *)

Lemma valid_inv now key secret p :
  verifyActivationKey Date_parse now key secret = Normal (Valid p) ->
  base64UrlDecode key
    = payloadText (identifier p) (expiry p) (plan p) (nonce p)
        ++ DOT :: generateSignature
                    (payloadText (identifier p) (expiry p) (plan p) (nonce p))
                    secret
  /\ includes PIPE (identifier p) = false /\ includes PIPE (expiry p) = false
  /\ includes PIPE (plan p) = false /\ includes PIPE (nonce p) = false
  /\ includes DOT (nonce p) = false
  /\ exists t, Date_parse (expiry p) = Some t /\ now < t.
Proof.
  intros Hv.
  destruct (Nat.eq_dec (List.length (split PIPE (base64UrlDecode key))) 4%nat)
    as [HL | HL].
  2:{ rewrite VerifyFacts.verify_few_fields in Hv by exact HL. discriminate. }
  destruct (split_four_inv _ _ HL)
    as (f1 & f2 & f3 & rest & Hs & Hd & H1 & H2 & H3 & H4).
  destruct (Nat.eq_dec (List.length (split DOT rest)) 2%nat) as [HR | HR].
  2:{ rewrite (VerifyFacts.verify_bad_signature_section
                 Date_parse now key secret _ _ _ _ Hs HR) in Hv.
      discriminate. }
  destruct (split_two_inv _ _ HR) as (n & sg & Hr & -> & Hn & Hsg).
  rewrite (VerifyFacts.verify_of_splits Date_parse now key secret
             _ _ _ _ _ _ Hs Hr) in Hv.
  rewrite includes_app, includes_cons, orb_false_iff, orb_false_iff in H4.
  destruct H4 as (Hnp & _ & _).
  destruct (bool_decide
              (sg = generateSignature (payloadText f1 f2 f3 n) secret))
    eqn:E; [|discriminate].
  apply bool_decide_eq_true_1 in E. subst sg.
  unfold check_expiry in Hv. cbn [expiry] in Hv.
  destruct (Date_parse f2) as [t|] eqn:Ht; [|discriminate].
  destruct (Z.leb_spec t now); [discriminate|].
  injection Hv as <-. cbn [identifier expiry plan nonce].
  repeat apply conj; try assumption.
  - rewrite Hd. unfold payloadText. rewrite <- !List.app_assoc. reflexivity.
  - exists t. split; [exact Ht|lia].
Qed.

(** *** An encoded payload with any signature text *)

Lemma verify_encoded now f1 f2 f3 n sg secret :
  code_units f1 = true -> code_units f2 = true ->
  code_units f3 = true -> code_units n = true ->
  well_formed sg = true ->
  includes PIPE f1 = false -> includes PIPE f2 = false ->
  includes PIPE f3 = false -> includes PIPE n = false ->
  includes DOT n = false ->
  includes PIPE sg = false -> includes DOT sg = false ->
  verifyActivationKey Date_parse now
    (base64UrlEncode (payloadText f1 f2 f3 n ++ [DOT] ++ sg)) secret
  = Normal
      (if bool_decide (sg = generateSignature (payloadText f1 f2 f3 n) secret)
       then check_expiry Date_parse now
              {| identifier := toWellFormed f1; expiry := toWellFormed f2;
                 plan := toWellFormed f3; nonce := toWellFormed n |}
       else Invalid SignatureMismatch).
Proof.
  intros W1 W2 W3 Wn Wsg H1 H2 H3 Hn Hd Hsp Hsd.
  pose proof (CodecFacts.code_units_payloadText _ _ _ _ W1 W2 W3 Wn) as Wp.
  rewrite <- (CodecFacts.generateSignature_toWellFormed _ secret Wp).
  rewrite CodecFacts.toWellFormed_payloadText by assumption.
  apply VerifyFacts.verify_of_text; try assumption.
  - apply decoded_text; assumption.
  - rewrite Utf8Facts.includes_toWellFormed;
      [assumption | assumption | exact CodecFacts.pipe_scalar | discriminate].
  - rewrite Utf8Facts.includes_toWellFormed;
      [assumption | assumption | exact CodecFacts.pipe_scalar | discriminate].
  - rewrite Utf8Facts.includes_toWellFormed;
      [assumption | assumption | exact CodecFacts.pipe_scalar | discriminate].
  - rewrite Utf8Facts.includes_toWellFormed;
      [assumption | assumption | exact CodecFacts.pipe_scalar | discriminate].
  - rewrite Utf8Facts.includes_toWellFormed;
      [assumption | assumption | exact CodecFacts.dot_scalar | discriminate].
Qed.

End More.

(** *** The forgiving decoder *)

Lemma base64_sextets_stop a x :
  base64_sextets (a ++ EQUALS :: x) = base64_sextets a.
Proof.
  induction a as [|c a IH]; [reflexivity|].
  cbn [List.app base64_sextets]. rewrite IH. reflexivity.
Qed.

Lemma base64_sextets_padding a k :
  base64_sextets (a ++ List.repeat EQUALS k) = base64_sextets a.
Proof.
  destruct k as [|k]; cbn [List.repeat].
  - rewrite List.app_nil_r. reflexivity.
  - apply base64_sextets_stop.
Qed.

Lemma base64_sextets_skip a c x :
  unbase64 (c mod 256) = None -> c mod 256 <> EQUALS ->
  base64_sextets (a ++ c :: x) = base64_sextets (a ++ x).
Proof.
  intros Hc Hne. induction a as [|d a IH].
  - cbn [List.app base64_sextets]. apply Z.eqb_neq in Hne.
    rewrite Hne, Hc. reflexivity.
  - cbn [List.app base64_sextets]. rewrite IH. reflexivity.
Qed.

(** base64UrlDecode by the sextets of the key alone. *)
Lemma base64UrlDecode_sextets key :
  base64UrlDecode key
  = toString_utf8
      (base64_groups
         (base64_sextets
            (replaceAll UNDERSCORE SLASH (replaceAll MINUS PLUS key)))).
Proof.
  unfold base64UrlDecode, from_base64, JS.repeat.
  rewrite base64_sextets_padding. reflexivity.
Qed.

Lemma base64UrlDecode_after_equals key junk :
  base64UrlDecode (key ++ EQUALS :: junk) = base64UrlDecode key.
Proof.
  rewrite !base64UrlDecode_sextets.
  rewrite !Base64Facts.replaceAll_app, !Base64Facts.replaceAll_cons.
  change (swap UNDERSCORE SLASH (swap MINUS PLUS EQUALS)) with EQUALS.
  rewrite base64_sextets_stop. reflexivity.
Qed.

Lemma base64UrlDecode_skips a c b :
  unbase64 (c mod 256) = None -> c mod 256 <> EQUALS ->
  base64UrlDecode (a ++ c :: b) = base64UrlDecode (a ++ b).
Proof.
  intros Hc Hne. rewrite !base64UrlDecode_sextets.
  rewrite !Base64Facts.replaceAll_app, !Base64Facts.replaceAll_cons.
  assert (swap UNDERSCORE SLASH (swap MINUS PLUS c) = c) as ->.
  { unfold swap, UNDERSCORE, SLASH, MINUS, PLUS.
    destruct (Z.eqb_spec c 45) as [-> | _]; [discriminate Hc|].
    destruct (Z.eqb_spec c 95) as [-> | _]; [discriminate Hc|]. reflexivity. }
  rewrite base64_sextets_skip by assumption. reflexivity.
Qed.

(** verifyActivationKey reads its key through base64UrlDecode only. *)
Lemma verify_by_decoded Date_parse now key key' secret :
  base64UrlDecode key = base64UrlDecode key' ->
  verifyActivationKey Date_parse now key secret
  = verifyActivationKey Date_parse now key' secret.
Proof.
  intros H. unfold verifyActivationKey, verifyBody. rewrite H. reflexivity.
Qed.

End VerifyMore.

(** ** Laws of verification *)

Module VerificationLaws.

Import JS Text TextFacts Hmac Order Sample.

(** X4: a secret of fewer than 64 UTF-8 bytes and the same secret followed
    by U+0000 cannot be told apart: every key has the same verification
    result under both. *)
Theorem secret_followed_by_nul
  (Date_parse : jsstring -> option Z) (now : Z) (key secret : jsstring) :
  code_units secret = true ->
  (List.length (Buffer.from_utf8 secret) < 64)%nat ->
  verifyActivationKey Date_parse now key (secret ++ [0])
  = verifyActivationKey Date_parse now key secret.
Proof.
  intros Hs Hlen. unfold verifyActivationKey, verifyBody. cbv zeta.
  rewrite VerifyMore.generateSignature_nul by assumption. reflexivity.
Qed.

Lemma secret_followed_by_nul_witness :
  verifyActivationKey Engine.iso_parse 0 key_u1 (secret_k ++ [0])
  = verifyActivationKey Engine.iso_parse 0 key_u1 secret_k.
Proof.
  apply (secret_followed_by_nul Engine.iso_parse 0 key_u1 secret_k).
  - reflexivity.
  - vm_compute. lia.
Defined.

(** X5: Valid is returned only for a key whose decoded text is the four
    returned fields joined by the field delimiter, then a dot, then the
    signature of exactly that payload under the secret; the fields are
    free of the delimiter, the nonce of the dot, and the expiry denotes an
    instant strictly after now. *)
Theorem valid_only_if_signed_and_unexpired
  (Date_parse : jsstring -> option Z) (now : Z) (key secret : jsstring)
  (p : ActivationPayload) :
  verifyActivationKey Date_parse now key secret = Normal (Valid p) ->
  base64UrlDecode key
    = payloadText (identifier p) (expiry p) (plan p) (nonce p)
        ++ DOT :: generateSignature
                    (payloadText (identifier p) (expiry p) (plan p) (nonce p))
                    secret
  /\ includes PIPE (identifier p) = false /\ includes PIPE (expiry p) = false
  /\ includes PIPE (plan p) = false /\ includes PIPE (nonce p) = false
  /\ includes DOT (nonce p) = false
  /\ exists t, Date_parse (expiry p) = Some t /\ now < t.
Proof. apply VerifyMore.valid_inv. Qed.

Lemma valid_only_if_signed_and_unexpired_witness :
  base64UrlDecode key_u1
    = payloadText u1 y2030 basic n1
        ++ DOT :: generateSignature (payloadText u1 y2030 basic n1) secret_k
  /\ exists t, Engine.iso_parse y2030 = Some t /\ 0 < t.
Proof.
  destruct (valid_only_if_signed_and_unexpired Engine.iso_parse 0
              key_u1 secret_k
              {| identifier := u1; expiry := y2030;
                 plan := basic; nonce := n1 |})
    as (Hd & _ & _ & _ & _ & _ & Ht).
  - vm_compute. reflexivity.
  - split; [exact Hd|exact Ht].
Defined.



(** X7: when any of the four fields given to createActivationKey holds the
    field delimiter, the key it returns is answered with MalformedPayload
    under every secret and at every clock. *)
Theorem delimiter_in_field_never_verifies
  (Date_parse : jsstring -> option Z) (now : Z)
  (id e p n made_with secret : jsstring) :
  code_units id = true -> code_units e = true ->
  code_units p = true -> code_units n = true ->
  includes PIPE id || includes PIPE e || includes PIPE p || includes PIPE n
  = true ->
  (key ← createActivationKey id e p n made_with;
   verifyActivationKey Date_parse now key secret)
  = Normal (Invalid MalformedPayload).
Proof.
  intros W1 W2 W3 W4 Hsome.
  unfold createActivationKey. cbn [mbind completion_bind].
  apply VerifyFacts.verify_few_fields.
  set (sg := generateSignature (payloadText id e p n) made_with).
  assert (Wsg : well_formed sg = true)
    by apply CodecFacts.well_formed_hex, SignatureFacts.generateSignature_hex.
  pose proof (CodecFacts.code_units_payloadText _ _ _ _ W1 W2 W3 W4) as Wp.
  rewrite CodecFacts.base64Url_roundtrip.
  2:{ rewrite !Utf8Facts.code_units_app, Wp.
      rewrite (Utf8Facts.well_formed_code_units sg Wsg). reflexivity. }
  rewrite split_length.
  rewrite VerifyMore.occurrences_toWellFormed;
    [| rewrite !Utf8Facts.code_units_app, Wp,
         (Utf8Facts.well_formed_code_units sg Wsg); reflexivity
     | exact CodecFacts.pipe_scalar | discriminate].
  rewrite occurrences_app, VerifyMore.occurrences_payloadText by reflexivity.
  assert (1 <= occurrences PIPE id + occurrences PIPE e
               + occurrences PIPE p + occurrences PIPE n)%nat; [|lia].
  rewrite !orb_true_iff in Hsome.
  destruct Hsome as [[[H | H] | H] | H];
    apply VerifyMore.includes_occurrences in H; lia.
Qed.

Lemma delimiter_in_field_never_verifies_witness :
  (key ← createActivationKey u1 y2030 (lit "pro|basic") n1 secret_k;
   verifyActivationKey Engine.iso_parse 0 key secret_k)
  = Normal (Invalid MalformedPayload).
Proof.
  apply (delimiter_in_field_never_verifies Engine.iso_parse 0
           u1 y2030 (lit "pro|basic") n1 secret_k secret_k);
    reflexivity.
Defined.

(** X8: when the fields given to createActivationKey are free of the
    field delimiter but the nonce holds a dot, the key it returns is
    answered with MalformedSignatureSection under every secret and at
    every clock. *)
Theorem dot_in_nonce_never_verifies
  (Date_parse : jsstring -> option Z) (now : Z)
  (id e p n made_with secret : jsstring) :
  code_units id = true -> code_units e = true ->
  code_units p = true -> code_units n = true ->
  includes PIPE id = false -> includes PIPE e = false ->
  includes PIPE p = false -> includes PIPE n = false ->
  includes DOT n = true ->
  (key ← createActivationKey id e p n made_with;
   verifyActivationKey Date_parse now key secret)
  = Normal (Invalid MalformedSignatureSection).
Proof.
  intros W1 W2 W3 W4 H1 H2 H3 H4 Hdot.
  unfold createActivationKey. cbn [mbind completion_bind].
  set (sg := generateSignature (payloadText id e p n) made_with).
  assert (Wsg : well_formed sg = true)
    by apply CodecFacts.well_formed_hex, SignatureFacts.generateSignature_hex.
  assert (Hsp : includes PIPE sg = false)
    by apply SignatureFacts.signature_no_pipe.
  assert (Hpipe : forall f, code_units f = true -> includes PIPE f = false ->
                            includes PIPE (toWellFormed f) = false).
  { intros f Wf Hf. rewrite Utf8Facts.includes_toWellFormed;
      [exact Hf | exact Wf | exact CodecFacts.pipe_scalar | discriminate]. }
  eapply VerifyFacts.verify_bad_signature_section.
  - rewrite VerifyMore.decoded_text by assumption.
    rewrite VerifyMore.payloadText_dot.
    apply VerifyMore.split_decoded; auto.
    rewrite includes_app, includes_cons, Hsp, (Hpipe n W4 H4). reflexivity.
  - rewrite split_length, occurrences_app, occurrences_cons, Z.eqb_refl.
    rewrite VerifyMore.occurrences_toWellFormed;
      [| exact W4 | exact CodecFacts.dot_scalar | discriminate].
    apply VerifyMore.includes_occurrences in Hdot. lia.
Qed.

Lemma dot_in_nonce_never_verifies_witness :
  (key ← createActivationKey u1 y2030 basic (lit "v1.7") secret_k;
   verifyActivationKey Engine.iso_parse 0 key secret_k)
  = Normal (Invalid MalformedSignatureSection).
Proof.
  apply (dot_in_nonce_never_verifies Engine.iso_parse 0
           u1 y2030 basic (lit "v1.7") secret_k secret_k);
    reflexivity.
Defined.

(** X9: whatever follows an '=' in a key is not looked at: the key with
    an '=' and any text appended has the verification result of the key
    itself. *)
Theorem text_after_equals_ignored
  (Date_parse : jsstring -> option Z) (now : Z) (key junk secret : jsstring) :
  verifyActivationKey Date_parse now (key ++ EQUALS :: junk) secret
  = verifyActivationKey Date_parse now key secret.
Proof.
  apply VerifyMore.verify_by_decoded, VerifyMore.base64UrlDecode_after_equals.
Qed.



End VerificationLaws.

(** ** More on the registry *)

Module RegistryFacts.

Import JS Text Hmac ActivationService Invariant.

Section Facts.

Variable Date_parse : jsstring -> option Z.

Lemma lookup_clean now id this :
  getSession id (cleanExpiredSessions Date_parse now this)
  = match getSession id this with
    | Some s => if expired Date_parse now s then None else Some s
    | None => None
    end.
Proof.
  unfold getSession, cleanExpiredSessions. cbn [activeSessions with_sessions].
  destruct (activeSessions this !! id) as [s|] eqn:Hs.
  - destruct (expired Date_parse now s) eqn:He.
    + apply map_lookup_filter_None. right. intros x Hx. cbn [snd].
      rewrite Hs in Hx. injection Hx as <-. rewrite He. discriminate.
    + apply map_lookup_filter_Some. split; [exact Hs|exact He].
  - apply map_lookup_filter_None. left. exact Hs.
Qed.

Lemma service_eq (a b : t) :
  secret a = secret b ->
  (forall id, getSession id a = getSession id b) -> a = b.
Proof.
  destruct a as [ma sa], b as [mb sb]. cbn. intros -> H.
  f_equal. apply map_eq. exact H.
Qed.

(** What an accepted activation has stored. *)
Lemma activate_accepted now stamp key this out this' :
  activate Date_parse now stamp key this = Normal (out, this') ->
  ok out = true ->
  exists p t,
    verifyActivationKey Date_parse now key (secret this) = Normal (Valid p)
    /\ out = Accepted (identifier p) (plan p) (expiry p)
    /\ this' = with_sessions this
                 (<[identifier p :=
                      {| s_identifier := identifier p; s_plan := plan p;
                         s_expiry := expiry p; activatedAt := stamp |}]>
                    (activeSessions this))
    /\ Date_parse (expiry p) = Some t /\ now < t.
Proof.
  intros Ha Hok.
  destruct (SessionRegistry.activate_outcome Date_parse now stamp key this)
    as [(why & _ & Hr) | (p & Hv & Hr)]; rewrite Hr in Ha.
  - injection Ha as <- <-. discriminate.
  - injection Ha as <- <-.
    destruct (VerifyMore.valid_inv Date_parse now key (secret this) p Hv)
      as (_ & _ & _ & _ & _ & _ & t & Ht & Hlt).
    exists p, t. repeat split; assumption.
Qed.

Lemma activate_rejected now stamp key this out this' :
  activate Date_parse now stamp key this = Normal (out, this') ->
  ok out = false -> this' = this.
Proof.
  intros Ha Hok.
  destruct (SessionRegistry.activate_outcome Date_parse now stamp key this)
    as [(why & _ & Hr) | (p & Hv & Hr)]; rewrite Hr in Ha.
  - injection Ha as _ <-. reflexivity.
  - injection Ha as <- _. discriminate.
Qed.

Lemma activate_returns now stamp key this :
  exists out this',
    activate Date_parse now stamp key this = Normal (out, this').
Proof.
  destruct (SessionRegistry.activate_outcome Date_parse now stamp key this)
    as [(why & _ & Hr) | (p & Hv & Hr)]; rewrite Hr; eauto.
Qed.

(** isActive on the identifier of a session just stored. *)
Lemma isActive_stored now id s t this :
  getSession id this = Some s -> Date_parse (s_expiry s) = Some t ->
  isActive Date_parse now id this
  = if t <=? now
    then (false, with_sessions this (delete id (activeSessions this)))
    else (true, this).
Proof.
  unfold getSession, isActive, expired. intros -> ->. reflexivity.
Qed.

Lemma readable_after c this :
  Readable.readable Date_parse this ->
  Readable.readable Date_parse (after Date_parse c this).
Proof.
  intros Hinv. destruct c as [now stamp key | now id | id | now];
    cbn [after].
  - destruct (activate_returns now stamp key this) as (out & this' & Ha).
    rewrite Ha. destruct (ok out) eqn:Hok.
    + destruct (activate_accepted _ _ _ _ _ _ Ha Hok)
        as (p & e & _ & _ & -> & He & _).
      intros k s. cbn [activeSessions with_sessions].
      destruct (decide (identifier p = k)) as [<- | Hne].
      * rewrite lookup_insert_eq. intros [= <-]. exists e. exact He.
      * rewrite lookup_insert_ne by exact Hne. apply Hinv.
    + rewrite (activate_rejected _ _ _ _ _ _ Ha Hok). exact Hinv.
  - unfold isActive. destruct (activeSessions this !! id) as [s0|];
      [|exact Hinv].
    destruct (expired Date_parse now s0); [|exact Hinv].
    intros k s. cbn [snd activeSessions with_sessions].
    intros H. apply lookup_delete_Some in H. apply (Hinv k), H.
  - exact Hinv.
  - intros k s. cbn [cleanExpiredSessions activeSessions with_sessions].
    intros H. apply map_lookup_filter_Some in H. apply (Hinv k), H.
Qed.

End Facts.

End RegistryFacts.

(** ** Laws of the registry *)

Module RegistryLaws.

Import JS Text Hmac ActivationService Invariant Sample.

(** X11: cleanExpiredSessions removes exactly the sessions whose expiry is
    now or earlier: afterwards getSession finds such a session no more,
    finds every other session as it was, and the secret is the same. *)
Theorem cleanExpiredSessions_removes_expired
  (Date_parse : jsstring -> option Z) (now : Z) (id : jsstring) (this : t) :
  secret (cleanExpiredSessions Date_parse now this) = secret this
  /\ getSession id (cleanExpiredSessions Date_parse now this)
     = match getSession id this with
       | Some s =>
           match Date_parse (s_expiry s) with
           | Some e => if e <=? now then None else Some s
           | None => Some s
           end
       | None => None
       end.
Proof.
  split; [reflexivity|].
  rewrite RegistryFacts.lookup_clean. unfold expired.
  destruct (getSession id this) as [s|]; [|reflexivity].
  destruct (Date_parse (s_expiry s)) as [e|]; reflexivity.
Qed.

(** X12: a second sweep at the same instant changes nothing, and after a
    sweep isActive at that instant gives for every identifier the answer
    it would have given before, without deleting anything. *)
Theorem cleanExpiredSessions_settles
  (Date_parse : jsstring -> option Z) (now : Z) (this : t) :
  cleanExpiredSessions Date_parse now
    (cleanExpiredSessions Date_parse now this)
  = cleanExpiredSessions Date_parse now this
  /\ forall id,
       isActive Date_parse now id (cleanExpiredSessions Date_parse now this)
       = (fst (isActive Date_parse now id this),
          cleanExpiredSessions Date_parse now this).
Proof.
  split.
  - apply RegistryFacts.service_eq; [reflexivity|]. intros id.
    rewrite !RegistryFacts.lookup_clean.
    destruct (getSession id this) as [s|]; [|reflexivity].
    destruct (expired Date_parse now s) eqn:He; [reflexivity|].
    rewrite He. reflexivity.
  - intros id.
    pose proof (RegistryFacts.lookup_clean Date_parse now id this) as Hl.
    unfold isActive. unfold getSession in Hl. rewrite Hl.
    destruct (activeSessions this !! id) as [s|]; [|reflexivity].
    destruct (expired Date_parse now s) eqn:He; [reflexivity|].
    rewrite He. reflexivity.
Qed.

(** X13: isActive keeps the secret and every other identifier's session,
    and asked again at the same instant it gives the same answer and
    changes nothing more. *)
Theorem isActive_frame_and_repeat
  (Date_parse : jsstring -> option Z) (now : Z) (id : jsstring) (this : t) :
  secret (snd (isActive Date_parse now id this)) = secret this
  /\ (forall other, other <> id ->
        getSession other (snd (isActive Date_parse now id this))
        = getSession other this)
  /\ isActive Date_parse now id (snd (isActive Date_parse now id this))
     = isActive Date_parse now id this.
Proof.
  unfold isActive, getSession.
  destruct (activeSessions this !! id) as [s|] eqn:Hs.
  2:{ cbn [snd]. rewrite Hs. auto. }
  destruct (expired Date_parse now s) eqn:He; cbn [snd].
  - cbn [secret activeSessions with_sessions].
    rewrite lookup_delete_eq.
    split; [reflexivity|]. split.
    + intros other Hne. apply lookup_delete_ne. congruence.
    + reflexivity.
  - rewrite Hs, He. auto.
Qed.

Lemma isActive_frame_and_repeat_witness :
  getSession (lit "u2") (snd (isActive Engine.iso_parse y2030_ms u1 service_u1))
  = getSession (lit "u2") service_u1.
Proof.
  apply (isActive_frame_and_repeat Engine.iso_parse y2030_ms u1 service_u1).
  vm_compute. discriminate.
Defined.

(** X14: after an accepted activation the accepted identifier is active
    at every instant before the instant its expiry denotes, which is later
    than the activation, and inactive at that instant and at every later
    one. *)
Theorem accepted_then_active_until_expiry
  (Date_parse : jsstring -> option Z) (now stamp : Z) (key : jsstring)
  (this this' : t) (out : ActivationOutcome) :
  activate Date_parse now stamp key this = Normal (out, this') ->
  ok out = true ->
  exists id e t,
    o_identifier out = Some id /\ o_expiry out = Some e
    /\ Date_parse e = Some t /\ now < t
    /\ (forall later, later < t ->
          isActive Date_parse later id this' = (true, this'))
    /\ (forall later, t <= later ->
          fst (isActive Date_parse later id this') = false).
Proof.
  intros Ha Hok.
  destruct (RegistryFacts.activate_accepted Date_parse _ _ _ _ _ _ Ha Hok)
    as (p & t & _ & -> & -> & Ht & Hlt).
  exists (identifier p), (expiry p), t.
  repeat apply conj; try reflexivity; try assumption.
  - intros later Hl.
    erewrite RegistryFacts.isActive_stored;
      [| apply lookup_insert_eq | exact Ht].
    destruct (Z.leb_spec t later); [lia|reflexivity].
  - intros later Hl.
    erewrite RegistryFacts.isActive_stored;
      [| apply lookup_insert_eq | exact Ht].
    destruct (Z.leb_spec t later); [reflexivity|lia].
Qed.

Lemma accepted_then_active_until_expiry_witness :
  exists id e t,
    Some u1 = Some id /\ Some y2030 = Some e
    /\ Engine.iso_parse e = Some t /\ 0 < t
    /\ (forall later, later < t ->
          isActive Engine.iso_parse later id service_u1 = (true, service_u1))
    /\ (forall later, t <= later ->
          fst (isActive Engine.iso_parse later id service_u1) = false).
Proof.
  apply (accepted_then_active_until_expiry Engine.iso_parse 0 5 key_u1
           (new secret_k) service_u1 (Accepted u1 basic y2030)).
  - vm_compute. reflexivity.
  - reflexivity.
Defined.

(** X15: in every registry reached from the empty one by any sequence of
    calls, the expiry of every stored session can be read as a date, so
    isActive and cleanExpiredSessions never meet an invalid date there. *)
Theorem reachable_sessions_readable
  (Date_parse : jsstring -> option Z) (secret : jsstring)
  (calls : list call) (id : jsstring) (s : ActivationSession) :
  getSession id (run Date_parse calls (new secret)) = Some s ->
  exists e, Date_parse (s_expiry s) = Some e.
Proof.
  unfold getSession, run.
  assert (H0 : Readable.readable Date_parse (new secret)).
  { intros k x. cbn. rewrite lookup_empty. discriminate. }
  revert H0. generalize (new secret).
  induction calls as [|c calls IH]; intros this Hinv.
  - apply Hinv.
  - cbn [List.fold_left]. apply IH, RegistryFacts.readable_after, Hinv.
Qed.

Lemma reachable_sessions_readable_witness :
  exists e, Engine.iso_parse (s_expiry session_u1) = Some e.
Proof.
  apply (reachable_sessions_readable Engine.iso_parse secret_k
           [CallActivate 0 5 key_u1; CallIsActive 7 u1] u1 session_u1).
  vm_compute. reflexivity.
Defined.

End RegistryLaws.

(** ** The middleware and the activation route *)

Module HttpFacts.

Import JS Text Hmac ActivationService Routes.

Abbreviation starts_clean := (Clean.starts_clean is_space).

(** *** trim *)

Lemma trimStart_clean s :
  List.forallb (fun c => negb (is_space c)) s = true -> trimStart s = s.
Proof.
  destruct s as [|c t]; [reflexivity|]. cbn [List.forallb trimStart].
  rewrite andb_true_iff, negb_true_iff. intros [-> _]. reflexivity.
Qed.

Lemma trim_clean s :
  List.forallb (fun c => negb (is_space c)) s = true -> trim s = s.
Proof.
  intros H. unfold trim. rewrite (trimStart_clean s) by exact H.
  rewrite trimStart_clean.
  - apply List.rev_involutive.
  - rewrite List.forallb_forall in *. intros c Hc.
    apply H, List.in_rev, Hc.
Qed.

(** trimStart leaves a text that does not begin with white space, and
    that text is an end of the one it was given. *)
Lemma trimStart_starts_clean s : starts_clean (trimStart s).
Proof.
  induction s as [|c t IH]; [exact I|]. cbn [trimStart].
  destruct (is_space c) eqn:E; [exact IH|exact E].
Qed.

Lemma trimStart_fixed s : starts_clean s -> trimStart s = s.
Proof.
  destruct s as [|c t]; [reflexivity|]. cbn [starts_clean trimStart].
  intros ->. reflexivity.
Qed.

Lemma trimStart_is_end s : exists pre, s = pre ++ trimStart s.
Proof.
  induction s as [|c t [pre IH]]; [exists []; reflexivity|].
  cbn [trimStart]. destruct (is_space c).
  - exists (c :: pre). cbn [List.app]. rewrite <- IH. reflexivity.
  - exists []. reflexivity.
Qed.

Lemma trim_starts_clean s : starts_clean (trim s).
Proof.
  unfold trim.
  destruct (trimStart_is_end (List.rev (trimStart s))) as [pre Hpre].
  set (w := trimStart (List.rev (trimStart s))) in *.
  assert (Hts : trimStart s = List.rev w ++ List.rev pre).
  { rewrite <- List.rev_app_distr, <- Hpre, List.rev_involutive. reflexivity. }
  pose proof (trimStart_starts_clean s) as Hc. rewrite Hts in Hc.
  destruct (List.rev w) as [|c r]; [exact I|exact Hc].
Qed.

Lemma trim_idempotent s : trim (trim s) = trim s.
Proof.
  unfold trim at 1. rewrite (trimStart_fixed (trim s)) by apply trim_starts_clean.
  unfold trim. rewrite List.rev_involutive.
  rewrite (trimStart_fixed (trimStart _)) by apply trimStart_starts_clean.
  reflexivity.
Qed.

Lemma trim_nil_of_nil s : s = [] -> trim s = [].
Proof. intros ->. reflexivity. Qed.

(** *** Keys made by base64UrlEncode need no trimming *)

Lemma url_safe_not_space c : url_safe_char c = true -> is_space c = false.
Proof.
  unfold url_safe_char, is_space. intros H.
  rewrite !orb_true_iff, !andb_true_iff, !Z.leb_le, !Z.eqb_eq in H.
  rewrite !orb_false_iff, !andb_false_iff, !Z.leb_gt, !Z.eqb_neq.
  lia.
Qed.

Lemma trim_encoded s :
  code_units s = true -> trim (base64UrlEncode s) = base64UrlEncode s.
Proof.
  intros Hs. apply trim_clean.
  rewrite ShapeFacts.base64UrlEncode_shape by exact Hs.
  apply List.forallb_forall. intros c Hc.
  apply List.in_map_iff in Hc. destruct Hc as (v & <- & Hv).
  apply negb_true_iff, url_safe_not_space, ShapeFacts.url_safe_of_sextet.
  pose proof (Base64Facts.sextets_range (Buffer.from_utf8 s)
                (Utf8Facts.from_utf8_bytes_of_units s Hs)) as Hr.
  rewrite List.Forall_forall in Hr. exact (Hr v Hv).
Qed.

End HttpFacts.

Module HandlerFacts.

Import JS Text Hmac ActivationService Routes.

Lemma toWellFormed_nil s : toWellFormed s = [] -> s = [].
Proof.
  destruct s as [|c t]; [reflexivity|]. cbn [toWellFormed].
  destruct (is_high c); [destruct t as [|d t']; [|destruct (is_low d)]|
                         destruct (is_low c)]; discriminate.
Qed.

Lemma base64UrlEncode_nonempty s :
  code_units s = true -> s <> [] -> base64UrlEncode s <> [].
Proof.
  intros Hs Hne He. apply Hne, toWellFormed_nil.
  rewrite <- CodecFacts.base64Url_roundtrip, He by exact Hs. reflexivity.
Qed.

Section Facts.

Variable Date_parse : jsstring -> option Z.
Variable toISOString : Z -> jsstring.

Lemma handler_of_string now stamp clock s this out this' :
  trim s <> [] ->
  activate Date_parse now stamp (trim s) this = Normal (out, this') ->
  activateHandler Date_parse toISOString now stamp clock (VString s) this
  = (Answer.answer toISOString clock out, this').
Proof.
  intros Ht Ha.
  assert (Hs : s <> []) by (intros ->; apply Ht; reflexivity).
  unfold activateHandler, activateBody, preview, Answer.answer. cbn [truthy].
  rewrite (bool_decide_eq_false_2 (s = [])) by exact Hs.
  cbn [negb mbind completion_bind].
  rewrite (bool_decide_eq_false_2 (trim s = [])) by exact Ht.
  rewrite Ha. cbn [mbind completion_bind].
  destruct (ok out); reflexivity.
Qed.

End Facts.

End HandlerFacts.

(** ** Laws of the middleware and of the activation route *)

Module HttpLaws.

Import JS Text Hmac ActivationService Middleware Routes Sample.

(** X16: requireActivation calls next only for a header that holds a
    non-empty identifier with a stored session that has not expired, and
    then leaves the registry as it was; in every other case it answers
    401, and what it has removed from the registry is at most that
    identifier's expired session. *)
Theorem requireActivation_gate
  (Date_parse : jsstring -> option Z) (now : Z)
  (header : option jsstring) (this : t) :
  match requireActivation Date_parse now header this with
  | (Next id, this') =>
      header = Some id /\ id <> [] /\ this' = this
      /\ exists s, getSession id this = Some s
                   /\ expired Date_parse now s = false
  | (Responded status _, this') =>
      status = 401
      /\ (this' = this
          \/ exists id s, header = Some id /\ getSession id this = Some s
                          /\ expired Date_parse now s = true
                          /\ this' = with_sessions this
                                       (delete id (activeSessions this)))
  end.
Proof.
  unfold requireActivation. destruct header as [id|]; [|auto].
  destruct (bool_decide_reflect (id = [])) as [-> | Hne]; [auto|].
  unfold isActive, getSession.
  destruct (activeSessions this !! id) as [s|] eqn:Hs; cbn [negb]; [|auto].
  destruct (expired Date_parse now s) eqn:He; cbn [negb].
  - split; [reflexivity|]. right. exists id, s. auto.
  - repeat split; auto. exists s. auto.
Qed.



Section Handler.

Variable Date_parse : jsstring -> option Z.
Variable toISOString : Z -> jsstring.

(** The handler on every kind of key. *)
Lemma handler_cases now stamp clock key this :
  (truthy key = false
   /\ activateHandler Date_parse toISOString now stamp clock key this
      = ((400, failure (lit "Missing activation key")), this))
  \/ (truthy key = true /\ (forall s, key <> VString s)
      /\ activateHandler Date_parse toISOString now stamp clock key this
         = ((500, failure (lit "Internal server error")), this))
  \/ (exists s, key = VString s /\ s <> [] /\ trim s = []
      /\ activateHandler Date_parse toISOString now stamp clock key this
         = ((400, failure (lit "Activation key cannot be empty")), this))
  \/ (exists s out this',
        key = VString s /\ trim s <> []
        /\ activate Date_parse now stamp (trim s) this = Normal (out, this')
        /\ activateHandler Date_parse toISOString now stamp clock key this
           = (Answer.answer toISOString clock out, this')).
Proof.
  destruct key as [| | b | z | s |].
  - left. split; reflexivity.
  - left. split; reflexivity.
  - destruct b; [right; left|left]; repeat split; try reflexivity.
    intros s; discriminate.
  - destruct z; [left|right; left]; repeat split; try reflexivity.
    intros s; discriminate.
  - destruct (decide (s = [])) as [-> | Hs]; [left; split; reflexivity|].
    destruct (decide (trim s = [])) as [Ht | Ht].
    + right. right. left. exists s. repeat split; try assumption.
      unfold activateHandler, activateBody, preview.
      cbn [truthy]. rewrite (bool_decide_eq_false_2 (s = [])) by exact Hs.
      cbn [negb mbind completion_bind].
      rewrite (bool_decide_eq_true_2 (trim s = [])) by exact Ht.
      reflexivity.
    + right. right. right.
      destruct (RegistryFacts.activate_returns Date_parse now stamp (trim s) this)
        as (out & this' & Ha).
      exists s, out, this'. repeat split; try assumption.
      apply HandlerFacts.handler_of_string; assumption.
  - right. left. repeat split; try reflexivity. intros s; discriminate.
Qed.

End Handler.

(** X18: the handler of POST /activate answers a falsy key (absent, null,
    false, 0, empty string) with 400 'Missing activation key' and a truthy
    key that is not a string with 500 'Internal server error'; no request
    at all is answered 'Activation key must be a string'. *)
Theorem handler_on_keys_that_are_no_text
  (Date_parse : jsstring -> option Z) (toISOString : Z -> jsstring)
  (now stamp clock : Z) (key : jsvalue) (this : t) :
  (truthy key = false ->
   activateHandler Date_parse toISOString now stamp clock key this
   = ((400, failure (lit "Missing activation key")), this))
  /\ (truthy key = true -> (forall s, key <> VString s) ->
      activateHandler Date_parse toISOString now stamp clock key this
      = ((500, failure (lit "Internal server error")), this))
  /\ message (snd (fst (activateHandler Date_parse toISOString
                          now stamp clock key this)))
     <> Some (lit "Activation key must be a string").
Proof.
  destruct (handler_cases Date_parse toISOString now stamp clock key this)
    as [(Hf & ->) | [(Ht & Hn & ->) | [(s & -> & Hs & Htr & ->)
       | (s & out & this' & -> & Htr & Ha & ->)]]].
  - repeat split; try discriminate. congruence.
  - repeat split; try discriminate. congruence.
  - repeat split; try discriminate.
    + cbn [truthy]. rewrite (bool_decide_eq_false_2 (s = [])) by exact Hs.
      discriminate.
    + intros _ H. destruct (H s eq_refl).
  - repeat split.
    + cbn [truthy]. intros H. apply negb_false_iff, bool_decide_eq_true_1 in H.
      subst s. destruct Htr. reflexivity.
    + intros _ H. destruct (H s eq_refl).
    + cbn [fst snd].
      destruct (SessionRegistry.activate_outcome
                  Date_parse now stamp (trim s) this)
        as [(why & _ & Hr) | (p & _ & Hr)]; rewrite Hr in Ha;
        injection Ha as <- <-.
      * destruct why; vm_compute; discriminate.
      * discriminate.
Qed.

Lemma handler_on_keys_that_are_no_text_witness :
  activateHandler Engine.iso_parse Calendar.iso_format 0 5 9 VNull service_u1
  = ((400, failure (lit "Missing activation key")), service_u1)
  /\ activateHandler Engine.iso_parse Calendar.iso_format 0 5 9 VObject
       service_u1
     = ((500, failure (lit "Internal server error")), service_u1).
Proof.
  split.
  - apply (handler_on_keys_that_are_no_text Engine.iso_parse
             Calendar.iso_format 0 5 9 VNull service_u1). reflexivity.
  - apply (handler_on_keys_that_are_no_text Engine.iso_parse
             Calendar.iso_format 0 5 9 VObject service_u1);
      [reflexivity | intros s; discriminate].
Defined.

(** X19: the handler answers with status 200, 400 or 500; the answer
    reports success exactly when the status is 200; and whenever the
    status is not 200 the registry is left as it was. *)
Theorem handler_status_and_registry
  (Date_parse : jsstring -> option Z) (toISOString : Z -> jsstring)
  (now stamp clock : Z) (key : jsvalue) (this : t) :
  let r := activateHandler Date_parse toISOString now stamp clock key this in
  (fst (fst r) = 200 \/ fst (fst r) = 400 \/ fst (fst r) = 500)
  /\ (success (snd (fst r)) = true <-> fst (fst r) = 200)
  /\ (fst (fst r) <> 200 -> snd r = this).
Proof.
  destruct (handler_cases Date_parse toISOString now stamp clock key this)
    as [(Hf & ->) | [(Ht & Hn & ->) | [(s & -> & Hs & Htr & ->)
       | (s & out & this' & -> & Htr & Ha & ->)]]];
    cbn zeta; cbn [fst snd failure success].
  - repeat split; auto; try discriminate.
  - repeat split; auto; try discriminate.
  - repeat split; auto; try discriminate.
  - unfold Answer.answer. destruct (ok out) eqn:Hok; cbn [fst snd failure success].
    + repeat split; auto. intros H. destruct H. reflexivity.
    + repeat split; auto; try discriminate. intros _.
      exact (RegistryFacts.activate_rejected Date_parse _ _ _ _ _ _ Ha Hok).
Qed.

Lemma handler_status_and_registry_witness :
  snd (activateHandler Engine.iso_parse Calendar.iso_format 0 5 9
         (VString (lit "***")) service_u1)
  = service_u1.
Proof.
  apply (handler_status_and_registry Engine.iso_parse Calendar.iso_format
           0 5 9 (VString (lit "***")) service_u1).
  vm_compute. discriminate.
Defined.



(** X21: a key that createActivationKey made under the registry's secret
    from well-formed, non-empty identifier and expiry, fields free of the
    field delimiter, a dot-free nonce and an expiry after now is answered
    200 with that identifier as userId and that expiry as expiresAt, and
    the session is stored under the identifier. *)
Theorem handler_accepts_created_key
  (Date_parse : jsstring -> option Z) (toISOString : Z -> jsstring)
  (now stamp clock instant : Z) (id e p n key : jsstring) (this : t) :
  well_formed id = true -> well_formed e = true ->
  well_formed p = true -> well_formed n = true ->
  includes PIPE id = false -> includes PIPE e = false ->
  includes PIPE p = false -> includes PIPE n = false ->
  includes DOT n = false ->
  id <> [] -> e <> [] ->
  Date_parse e = Some instant -> now < instant ->
  createActivationKey id e p n (secret this) = Normal key ->
  activateHandler Date_parse toISOString now stamp clock (VString key) this
  = ((200,
      {| success := true; userId := Some id;
         message := Some (lit "Activation successful");
         expiresAt := Some e |}),
     with_sessions this
       (<[id := {| s_identifier := id; s_plan := p; s_expiry := e;
                   activatedAt := stamp |}]> (activeSessions this))).
Proof.
  intros W1 W2 W3 W4 H1 H2 H3 H4 Hd Hid He Ht Hlt Hkey.
  pose proof (CodecFacts.verify_created Date_parse now id e p n
                (secret this) (secret this)
                (Utf8Facts.well_formed_code_units _ W1)
                (Utf8Facts.well_formed_code_units _ W2)
                (Utf8Facts.well_formed_code_units _ W3)
                (Utf8Facts.well_formed_code_units _ W4)
                H1 H2 H3 H4 Hd) as Hv.
  rewrite Hkey in Hv. cbn [mbind completion_bind] in Hv.
  rewrite bool_decide_eq_true_2 in Hv by reflexivity.
  rewrite !Utf8Facts.toWellFormed_well_formed in Hv by assumption.
  unfold Order.check_expiry in Hv. cbn [expiry] in Hv. rewrite Ht in Hv.
  destruct (Z.leb_spec instant now); [lia|].
  unfold createActivationKey in Hkey. injection Hkey as <-.
  set (full := payloadText id e p n ++ [DOT]
                 ++ generateSignature (payloadText id e p n) (secret this))
    in *.
  assert (Wfull : code_units full = true).
  { apply Utf8Facts.well_formed_code_units.
    subst full. unfold payloadText.
    repeat (apply Utf8Facts.well_formed_app; try assumption; try reflexivity).
    apply CodecFacts.well_formed_hex, SignatureFacts.generateSignature_hex. }
  assert (Htrim : trim (base64UrlEncode full) = base64UrlEncode full)
    by (apply HttpFacts.trim_encoded; exact Wfull).
  assert (Hne : trim (base64UrlEncode full) <> []).
  { rewrite Htrim. apply HandlerFacts.base64UrlEncode_nonempty; [exact Wfull|].
    subst full. unfold payloadText. destruct id; discriminate. }
  assert (Ha : activate Date_parse now stamp (trim (base64UrlEncode full)) this
               = Normal
                   (Accepted id p e,
                    with_sessions this
                      (<[id := {| s_identifier := id; s_plan := p;
                                  s_expiry := e; activatedAt := stamp |}]>
                         (activeSessions this)))).
  { rewrite Htrim. unfold activate. subst full. cbn [List.app].
    rewrite Hv. reflexivity. }
  match goal with
  | |- _ = ?r =>
      change (activateHandler Date_parse toISOString now stamp clock
                (VString (base64UrlEncode full)) this = r)
  end.
  rewrite (HandlerFacts.handler_of_string Date_parse toISOString
             now stamp clock _ this _ _ Hne Ha).
  unfold Answer.answer. cbn [ok Accepted o_identifier o_expiry or_else].
  rewrite (bool_decide_eq_false_2 (id = [])) by exact Hid.
  rewrite (bool_decide_eq_false_2 (e = [])) by exact He.
  reflexivity.
Qed.

Lemma handler_accepts_created_key_witness :
  activateHandler Engine.iso_parse Calendar.iso_format 0 5 9
    (VString key_u1) (new secret_k)
  = ((200,
      {| success := true; userId := Some u1;
         message := Some (lit "Activation successful");
         expiresAt := Some y2030 |}),
     with_sessions (new secret_k)
       (<[u1 := {| s_identifier := u1; s_plan := basic; s_expiry := y2030;
                   activatedAt := 5 |}]> (activeSessions (new secret_k)))).
Proof.
  apply (handler_accepts_created_key Engine.iso_parse Calendar.iso_format
           0 5 9 y2030_ms u1 y2030 basic n1 key_u1 (new secret_k));
    try (vm_compute; reflexivity); discriminate.
Defined.

End HttpLaws.

(** ** The key generator *)

Module GeneratorLaws.

Import JS Text Hmac GenerateKey.



End GeneratorLaws.
